(** * Message wall: the two Lambda handlers, embedded and verified

    [app/api-handler/handler.py] (the ingest handler) and
    [app/snapshot-writer/handler.py] (the snapshot builder) are embedded as
    computations in a state-and-exception monad over a world made of the
    DynamoDB table, the EventBridge bus, the S3 bucket, the trace of service
    calls and the printed log.

    Python values are dynamically typed: [pyval] keeps the run-time tag, and
    the operations the handlers apply to them ([.get], [.strip], [in],
    [.split], [int]) raise the exception Python raises on a value of the
    wrong type.

    The functions of Python's standard library that the handlers call
    ([json.loads], [json.dumps], [base64.b64decode] followed by [.decode],
    [int] on a string) are parameters, gathered in the class [PyLib]: every
    theorem holds for any behaviour of them.  [json.loads] on a string
    returns a value or raises [JSONDecodeError], another [ValueError] or
    [RecursionError].  A character of a [string] is one code point below
    256. *)

From Stdlib Require Import ZArith String Ascii List Bool Lia.
From Stdlib Require Import SpecFloat.
From stdpp Require Import base option list strings gmap fin_maps sorting pretty.

Set Warnings "-register-all".

Local Open Scope string_scope.
Local Open Scope Z_scope.

(** ** Python values, exceptions and string operations *)
Module Py.

(** A Python value.  A dict is the list of its bindings in insertion order;
    a lookup takes the first binding of the key.  [PDecimal] is the
    [decimal.Decimal] under which boto3 hands out a DynamoDB number. *)
Inductive pyval : Type :=
| PNone
| PBool (b : bool)
| PInt (z : Z)
| PFloat (f : spec_float)
| PDecimal (z : Z)
| PStr (s : string)
| PList (l : list pyval)
| PDict (d : list (string * pyval)).

(** The exception classes that occur, all below [Exception]. *)
Inductive exn_class : Type :=
| JSONDecodeError
| BinasciiError
| UnicodeDecodeError
| ValueError
| AttributeError
| TypeError
| OverflowError
| IndexError
| RecursionError
| ClientError
| OtherException.

Record exn : Type := mkExn { exn_cls : exn_class; exn_msg : string }.

(** [isinstance(e, ValueError)]: [json.JSONDecodeError], [binascii.Error]
    and [UnicodeDecodeError] are subclasses of [ValueError]. *)
Definition is_ValueError (e : exn) : bool :=
  match exn_cls e with
  | JSONDecodeError | BinasciiError | UnicodeDecodeError | ValueError => true
  | _ => false
  end.

Definition is_JSONDecodeError (e : exn) : bool :=
  match exn_cls e with
  | JSONDecodeError => true
  | _ => false
  end.

Inductive result (A : Type) : Type :=
| Ok (a : A)
| Raise (e : exn).
Arguments Ok {A} a.
Arguments Raise {A} e.

Definition type_name (v : pyval) : string :=
  match v with
  | PNone => "NoneType"
  | PBool _ => "bool"
  | PInt _ => "int"
  | PFloat _ => "float"
  | PDecimal _ => "decimal.Decimal"
  | PStr _ => "str"
  | PList _ => "list"
  | PDict _ => "dict"
  end.

Definition no_attribute (v : pyval) (attr : string) : exn :=
  mkExn AttributeError
    ("'" +:+ type_name v +:+ "' object has no attribute '" +:+ attr +:+ "'").

(** First binding of [k] in a dict's bindings. *)
Fixpoint assoc (k : string) (d : list (string * pyval)) : option pyval :=
  match d with
  | [] => None
  | (k', v) :: d' => if String.eqb k k' then Some v else assoc k d'
  end.

(** [v.get(k, dflt)]: only a dict has the method. *)
Definition get (v : pyval) (k : string) (dflt : pyval) : result pyval :=
  match v with
  | PDict d => Ok (default dflt (assoc k d))
  | _ => Raise (no_attribute v "get")
  end.

(** [v == s] for a string literal [s]. *)
Definition eq_str (v : pyval) (s : string) : bool :=
  match v with
  | PStr s' => String.eqb s' s
  | _ => false
  end.

Definition float_is_zero (f : spec_float) : bool :=
  match f with
  | S754_zero _ => true
  | _ => false
  end.

(** Truth value of [v] in an [if]. *)
Definition truthy (v : pyval) : bool :=
  match v with
  | PNone => false
  | PBool b => b
  | PInt z => negb (z =? 0)
  | PFloat f => negb (float_is_zero f)
  | PDecimal z => negb (z =? 0)
  | PStr s => negb (String.eqb s "")
  | PList l => match l with [] => false | _ => true end
  | PDict d => match d with [] => false | _ => true end
  end.

(** [str.isspace] on one character below 256: TAB to CR, FS to US, space,
    NEL and the no-break space. *)
Definition isspace (c : ascii) : bool :=
  let n := nat_of_ascii c in
  ((9 <=? n) && (n <=? 13) || (28 <=? n) && (n <=? 32)
   || (n =? 133) || (n =? 160))%nat.

Fixpoint lstrip (s : string) : string :=
  match s with
  | EmptyString => EmptyString
  | String c s' => if isspace c then lstrip s' else s
  end.

Fixpoint rstrip (s : string) : string :=
  match s with
  | EmptyString => EmptyString
  | String c s' =>
      match rstrip s' with
      | EmptyString => if isspace c then EmptyString else String c EmptyString
      | r => String c r
      end
  end.

(** [s.strip()] *)
Definition str_strip (s : string) : string := rstrip (lstrip s).

(** [v.strip()]: only a str has the method. *)
Definition strip (v : pyval) : result string :=
  match v with
  | PStr s => Ok (str_strip s)
  | _ => Raise (no_attribute v "strip")
  end.

(** [c in s] for a one-character string [c]. *)
Fixpoint str_contains (c : ascii) (s : string) : bool :=
  match s with
  | EmptyString => false
  | String c' s' => Ascii.eqb c' c || str_contains c s'
  end.

(** [s.split(c)] for a one-character separator [c]. *)
Fixpoint str_split (c : ascii) (s : string) : list string :=
  match s with
  | EmptyString => [EmptyString]
  | String c' s' =>
      if Ascii.eqb c' c then EmptyString :: str_split c s'
      else match str_split c s' with
           | h :: t => String c' h :: t
           | [] => [String c' EmptyString]
           end
  end.

(** [int(f)] on a float: truncation towards zero. *)
Definition int_of_float (f : spec_float) : result Z :=
  match f with
  | S754_zero _ => Ok 0
  | S754_finite s m e =>
      let a := match e with
               | Z.neg k => Z.shiftr (Z.pos m) (Z.pos k)
               | _ => Z.shiftl (Z.pos m) e
               end in
      Ok (if s then - a else a)
  | S754_infinity _ =>
      Raise (mkExn OverflowError "cannot convert float infinity to integer")
  | S754_nan => Raise (mkExn ValueError "cannot convert float NaN to integer")
  end.

(** No [decimal.Decimal] inside: the values [json.dumps] accepts. *)
Fixpoint serializable (v : pyval) : bool :=
  match v with
  | PDecimal _ => false
  | PList l => forallb serializable l
  | PDict d => forallb (fun kv => serializable (snd kv)) d
  | _ => true
  end.

(** Why [base64.b64decode(s).decode("utf-8")] fails: a non-ASCII character
    in [s] ([ValueError]), bad padding ([binascii.Error]), or bytes that are
    not UTF-8 ([UnicodeDecodeError]). *)
Inductive decode_error : Type :=
| NonAsciiInput
| BadBase64
| BadUtf8.

Definition exn_of_decode_error (d : decode_error) : exn :=
  match d with
  | NonAsciiInput => mkExn ValueError "string argument should contain only ASCII characters"
  | BadBase64 => mkExn BinasciiError "Incorrect padding"
  | BadUtf8 => mkExn UnicodeDecodeError "'utf-8' codec can't decode"
  end.

(** Why [json.loads] raises on a str it does not turn into a value: the
    text is not JSON ([JSONDecodeError]); an integer literal is longer than
    the interpreter's limit for int conversion (a plain [ValueError]); or
    arrays and objects are nested deeper than the interpreter's recursion
    limit ([RecursionError], a [RuntimeError], not a [ValueError]). *)
Inductive loads_failure : Type :=
| NotJson
| IntTooLong
| NestedTooDeep.

Definition exn_of_loads_failure (f : loads_failure) : exn :=
  match f with
  | NotJson => mkExn JSONDecodeError "Expecting value"
  | IntTooLong =>
      mkExn ValueError "Exceeds the limit (4300 digits) for integer string conversion"
  | NestedTooDeep =>
      mkExn RecursionError "maximum recursion depth exceeded while decoding a JSON array from a unicode string"
  end.

(** The standard-library functions the handlers call. *)
Class PyLib : Type := {
  (** [json.loads] on a str: the value, or [None] when it raises *)
  loads_str : string -> option pyval;
  (** what [json.loads] raises on a str it returns no value for *)
  loads_raises : string -> loads_failure;
  (** the text [json.dumps(v, indent=i)] of a serializable value *)
  dumps_text : option nat -> pyval -> string;
  (** [base64.b64decode(s).decode("utf-8")] on a str *)
  b64decode_utf8 : string -> string + decode_error;
  (** [int(s)] on a str: the integer, or [None] for [ValueError] *)
  int_of_str : string -> option Z;
  (** [str(v)] of a float, a list or a dict *)
  repr_text : pyval -> string
}.

Section WithLib.
Context `{PyLib}.

(** [json.loads(v)] *)
Definition json_loads (v : pyval) : result pyval :=
  match v with
  | PStr s =>
      match loads_str s with
      | Some j => Ok j
      | None => Raise (exn_of_loads_failure (loads_raises s))
      end
  | _ => Raise (mkExn TypeError
                  ("the JSON object must be str, bytes or bytearray, not "
                   +:+ type_name v))
  end.

(** [json.dumps(v, indent=i)] *)
Definition json_dumps (i : option nat) (v : pyval) : result string :=
  if serializable v then Ok (dumps_text i v)
  else Raise (mkExn TypeError "Object of type Decimal is not JSON serializable").

(** [base64.b64decode(v).decode("utf-8")] *)
Definition b64decode_decode (v : pyval) : result string :=
  match v with
  | PStr s =>
      match b64decode_utf8 s with
      | inl t => Ok t
      | inr d => Raise (exn_of_decode_error d)
      end
  | _ => Raise (mkExn TypeError
                  ("argument should be a bytes-like object or ASCII string, not '"
                   +:+ type_name v +:+ "'"))
  end.

(** [int(v)] *)
Definition int (v : pyval) : result Z :=
  match v with
  | PInt z | PDecimal z => Ok z
  | PBool b => Ok (if b then 1 else 0)
  | PStr s =>
      match int_of_str s with
      | Some z => Ok z
      | None => Raise (mkExn ValueError
                         ("invalid literal for int() with base 10: '" +:+ s +:+ "'"))
      end
  | PFloat f => int_of_float f
  | _ => Raise (mkExn TypeError
                  "int() argument must be a string, a bytes-like object or a real number")
  end.

(** [str(v)], as an f-string formats [v]. *)
Definition str (v : pyval) : string :=
  match v with
  | PNone => "None"
  | PBool b => if b then "True" else "False"
  | PInt z | PDecimal z => pretty z
  | PStr s => s
  | _ => repr_text v
  end.

End WithLib.

(** [c in v] for a one-character string [c]. *)
Definition contains (c : ascii) (v : pyval) : result bool :=
  match v with
  | PStr s => Ok (str_contains c s)
  | PList l => Ok (existsb (fun x => eq_str x (String c EmptyString)) l)
  | PDict d => Ok (bool_decide (is_Some (assoc (String c EmptyString) d)))
  | _ => Raise (mkExn TypeError
                  ("argument of type '" +:+ type_name v +:+ "' is not iterable"))
  end.

(** [v.split(c)]: only a str has the method. *)
Definition split (c : ascii) (v : pyval) : result (list string) :=
  match v with
  | PStr s => Ok (str_split c s)
  | _ => Raise (no_attribute v "split")
  end.

(** [l[i]] on a list of strings. *)
Definition index (l : list string) (i : nat) : result string :=
  match l !! i with
  | Some s => Ok s
  | None => Raise (mkExn IndexError "list index out of range")
  end.

End Py.

(** ** The world of the two handlers: table, bus, bucket, calls, log *)
Module Aws.
Import Py.

(** A DynamoDB attribute value of the two scalar types the application
    stores.  The boto3 resource layer hands an [S] out as a [str] and an [N]
    as a [decimal.Decimal]. *)
Inductive attr : Type :=
| AttrS (s : string)
| AttrN (n : Z).

Definition py_of_attr (a : attr) : pyval :=
  match a with
  | AttrS s => PStr s
  | AttrN n => PDecimal n
  end.

(** An object of the bucket, as [put_object] writes it. *)
Record s3_object : Type := mkObject {
  Body : string;
  ContentType : string;
  CacheControl : string
}.

(** An entry of [put_events]. *)
Record bus_entry : Type := mkEntry {
  Source : string;
  DetailType : string;
  Detail : string;
  EventBusName : string
}.

(** One call to a service, with the arguments the handlers pass. *)
Inductive call : Type :=
| UpdateItem (TableName : string) (Key : string * string)
    (UpdateExpression : string) (zero inc : Z)
| PutItem (TableName : string) (Item : gmap string attr)
| PutEvents (Entries : list bus_entry)
| GetItem (TableName : string) (Key : string * string)
    (ProjectionExpression : list string)
| Query (TableName : string) (pk : string) (ScanIndexForward : bool)
    (Limit : nat) (ProjectionExpression : list string)
| PutObject (Bucket Key : string) (obj : s3_object).

(** The table maps the composite key (PK, SK) to the other attributes of the
    item; the bucket maps (bucket name, object key) to the object.  [calls]
    is the trace of service calls, oldest first, and [log] the printed
    lines.

    The world holds one table, the one a handler's [TABLE_NAME] names: a call
    reaches it under whatever [TableName] it passes, and the name is kept in
    the trace.  A statement that runs the two handlers on one world therefore
    assumes that both environments name the same table.  A read returns the
    table as the writes before it left it (the reads of [get_item] and
    [query] are modelled as consistent). *)
Record world : Type := mkWorld {
  table : gmap (string * string) (gmap string attr);
  bus : list bus_entry;
  bucket : gmap (string * string) s3_object;
  calls : list call;
  log : list string
}.

(** What a handler gets from outside the world: the process environment,
    which service calls fail (by position in the trace) and with what, the
    clock formatted by [strftime], and [str(uuid.uuid4())]. *)
Record env : Type := mkEnv {
  environ : gmap string string;
  fault_at : nat -> option exn;
  now_strftime : string;
  uuid4 : string
}.

(** [os.environ.get(name, dflt)] *)
Definition environ_get (E : env) (name dflt : string) : string :=
  default dflt (environ E !! name).

Definition M (A : Type) : Type := world -> result A * world.

Definition ret {A} (a : A) : M A := fun w => (Ok a, w).

Definition raise {A} (e : exn) : M A := fun w => (Raise e, w).

Definition bind {A B} (m : M A) (k : A -> M B) : M B :=
  fun w =>
    match m w with
    | (Ok a, w') => k a w'
    | (Raise e, w') => (Raise e, w')
    end.

(** A pure computation that may raise. *)
Definition lift {A} (r : result A) : M A := fun w => (r, w).

(** [try: m  except Exception as e: h e] *)
Definition try_except {A} (m : M A) (h : exn -> M A) : M A :=
  fun w =>
    match m w with
    | (Ok a, w') => (Ok a, w')
    | (Raise e, w') => h e w'
    end.

(** [print(line)] *)
Definition print (line : string) : M unit :=
  fun w => (Ok tt, mkWorld (table w) (bus w) (bucket w) (calls w) (log w ++ [line])).

Definition record_call (c : call) (w : world) : world :=
  mkWorld (table w) (bus w) (bucket w) (calls w ++ [c]) (log w).

Definition set_table (t : gmap (string * string) (gmap string attr)) (w : world) : world :=
  mkWorld t (bus w) (bucket w) (calls w) (log w).

(** A service call: it is recorded, then fails as the environment says
    (leaving table, bus and bucket as they are) or takes effect. *)
Definition service {A} (E : env) (c : call) (op : M A) : M A :=
  fun w =>
    match fault_at E (length (calls w)) with
    | Some e => (Raise e, record_call c w)
    | None => op (record_call c w)
    end.

Definition validation_exception : exn :=
  mkExn ClientError "An error occurred (ValidationException)".

(** [table.update_item(Key=k, UpdateExpression="SET a = if_not_exists(a, :zero) + :inc")]:
    one indivisible step of the store; the item is created when absent. *)
Definition update_item (E : env) (TableName : string) (k : string * string)
    (a : string) (zero inc : Z) : M unit :=
  service E
    (UpdateItem TableName k
       ("SET " +:+ a +:+ " = if_not_exists(" +:+ a +:+ ", :zero) + :inc") zero inc)
    (fun w =>
       let it := default ∅ (table w !! k) in
       match it !! a with
       | None => (Ok tt, set_table (<[k := <[a := AttrN (zero + inc)]> it]> (table w)) w)
       | Some (AttrN n) => (Ok tt, set_table (<[k := <[a := AttrN (n + inc)]> it]> (table w)) w)
       | Some (AttrS _) => (Raise validation_exception, w)
       end).

(** [table.put_item(Item=it)]: the item replaces whatever its key held. *)
Definition put_item (E : env) (TableName : string) (it : gmap string attr) : M unit :=
  service E (PutItem TableName it)
    (fun w =>
       match it !! "PK", it !! "SK" with
       | Some (AttrS pk), Some (AttrS sk) =>
           (Ok tt, set_table (<[(pk, sk) := delete "PK" (delete "SK" it)]> (table w)) w)
       | _, _ => (Raise validation_exception, w)
       end).

(** The item as the store returns it, key attributes included. *)
Definition full_item (k : string * string) (it : gmap string attr) : gmap string attr :=
  <["PK" := AttrS k.1]> (<["SK" := AttrS k.2]> it).

(** A projection expression keeps the named attributes. *)
Definition project (names : list string) (it : gmap string attr) : gmap string attr :=
  filter (fun kv => kv.1 ∈ names) it.

(** The response of [get_item]: it has an ["Item"] only when the key holds
    one. *)
Record get_item_output : Type := mkGetItemOutput {
  Item : option (gmap string attr)
}.

Definition get_item (E : env) (TableName : string) (k : string * string)
    (proj : list string) : M get_item_output :=
  service E (GetItem TableName k proj)
    (fun w => (Ok (mkGetItemOutput (project proj <$> (full_item k <$> table w !! k))), w)).

(** The (sort key, item) pairs of a partition. *)
Definition partition_rows (pk : string) (t : gmap (string * string) (gmap string attr))
    : list (string * gmap string attr) :=
  (fun kv => (kv.1.2, kv.2)) <$> filter (fun kv => kv.1.1 = pk) (map_to_list t).

(** Order of a range scan on string sort keys: by code points. *)
Definition sk_le (x y : string * gmap string attr) : Prop :=
  String.leb x.1 y.1 = true.

Definition sk_ge (x y : string * gmap string attr) : Prop := sk_le y x.

#[global] Instance sk_le_dec x y : Decision (sk_le x y).
Proof. unfold sk_le. apply _. Defined.

#[global] Instance sk_ge_dec x y : Decision (sk_ge x y).
Proof. unfold sk_ge. apply _. Defined.

Definition scan (pk : string) (forward : bool)
    (t : gmap (string * string) (gmap string attr)) : list (string * gmap string attr) :=
  if forward then merge_sort sk_le (partition_rows pk t)
  else merge_sort sk_ge (partition_rows pk t).

(** The response of [query]. *)
Record query_output : Type := mkQueryOutput {
  Items : option (list (gmap string attr))
}.

(** [table.query(KeyConditionExpression="PK = :pk", ScanIndexForward=f, Limit=n, ProjectionExpression=proj)] *)
Definition query (E : env) (TableName : string) (pk : string) (forward : bool)
    (limit : nat) (proj : list string) : M query_output :=
  service E (Query TableName pk forward limit proj)
    (fun w =>
       (Ok (mkQueryOutput
              (Some ((fun r => project proj (full_item (pk, r.1) r.2))
                       <$> take limit (scan pk forward (table w))))), w)).

(** [events.put_events(Entries=es)] *)
Definition put_events (E : env) (es : list bus_entry) : M unit :=
  service E (PutEvents es)
    (fun w => (Ok tt, mkWorld (table w) (bus w ++ es) (bucket w) (calls w) (log w))).

(** [s3.put_object(Bucket=b, Key=k, Body=.., ContentType=.., CacheControl=..)]:
    the object replaces whatever the key held. *)
Definition put_object (E : env) (b k : string) (o : s3_object) : M unit :=
  service E (PutObject b k o)
    (fun w => (Ok tt, mkWorld (table w) (bus w) (<[(b, k) := o]> (bucket w)) (calls w) (log w))).

End Aws.

Declare Scope py_scope.
Delimit Scope py_scope with py.
Notation "x <- m ;; k" := (Aws.bind m (fun x => k))
  (at level 100, m at next level, right associativity) : py_scope.
Notation "m ;;; k" := (Aws.bind m (fun _ => k))
  (at level 100, right associativity) : py_scope.

Local Open Scope py_scope.

(** ** [app/api-handler/handler.py] *)
Module ApiHandler.
Import Py Aws.

(** The dict a handler returns to the Function URL. *)
Record http_response : Type := mkResponse {
  statusCode : Z;
  headers : list (string * string);
  body : pyval
}.

Section WithLib.
Context `{PyLib}.

Definition TABLE_NAME (E : env) : string :=
  environ_get E "TABLE_NAME" "messagewall-demo-dev".

Definition EVENT_BUS_NAME (E : env) : string :=
  environ_get E "EVENT_BUS_NAME" "default".

(** [response(status_code, body)] *)
Definition response (status_code : Z) (body : pyval) : result http_response :=
  let hdrs := [("Content-Type", "application/json")] in
  match body with
  | PDict _ =>
      match json_dumps None body with
      | Ok s => Ok (mkResponse status_code hdrs (PStr s))
      | Raise e => Raise e
      end
  | _ => Ok (mkResponse status_code hdrs body)
  end.

(** [event.get("requestContext", {}).get("http", {}).get("method", dflt)] *)
Definition request_method (event dflt : pyval) : M pyval :=
  rc <- lift (get event "requestContext" (PDict [])) ;;
  http <- lift (get rc "http" (PDict [])) ;;
  lift (get http "method" dflt).

(** The body of the first [try]: the trimmed text of the request. *)
Definition parse_body (event : pyval) : M string :=
  raw_body <- lift (get event "body" (PStr "{}")) ;;
  b64 <- lift (get event "isBase64Encoded" (PBool false)) ;;
  raw_body <- (if truthy b64
               then (t <- lift (b64decode_decode raw_body) ;; ret (PStr t))
               else ret raw_body) ;;
  body <- lift (json_loads raw_body) ;;
  text <- lift (get body "text" (PStr "")) ;;
  lift (strip text).

(** The body of the second [try]: count, store, notify, answer. *)
Definition write_sequence (E : env) (message_text timestamp message_id sort_key : string)
    : M http_response :=
  update_item E (TABLE_NAME E) ("METADATA", "METADATA") "messageCount" 0 1 ;;;
  put_item E (TABLE_NAME E)
    (<["PK" := AttrS "MESSAGE"]>
       (<["SK" := AttrS sort_key]>
          (<["text" := AttrS message_text]>
             (<["createdAt" := AttrS timestamp]> ∅)))) ;;;
  detail <- lift (json_dumps None
                    (PDict [("messageId", PStr message_id);
                            ("timestamp", PStr timestamp)])) ;;
  put_events E
    [mkEntry "messagewall.api-handler" "MessagePosted" detail (EVENT_BUS_NAME E)] ;;;
  lift (response 200
          (PDict [("success", PBool true);
                  ("messageId", PStr message_id);
                  ("timestamp", PStr timestamp)])).

(** [handler(event, context)] *)
Definition handler (E : env) (event : pyval) : M http_response :=
  m <- request_method event PNone ;;
  if eq_str m "OPTIONS" then lift (response 200 (PStr ""))
  else
    method <- request_method event (PStr "") ;;
    if negb (eq_str method "POST")
    then lift (response 405 (PDict [("error", PStr "Method not allowed")]))
    else
      fun w =>
        match parse_body event w with
        | (Raise e, w') =>
            if is_JSONDecodeError e || is_ValueError e
            then lift (response 400 (PDict [("error", PStr "Invalid JSON")])) w'
            else (Raise e, w')
        | (Ok message_text, w') =>
            (if negb (truthy (PStr message_text))
             then lift (response 400 (PDict [("error", PStr "Message text is required")]))
             else if (500 <? String.length message_text)%nat
             then lift (response 400 (PDict [("error", PStr "Message too long (max 500 chars)")]))
             else
               let timestamp := now_strftime E in
               let message_id := uuid4 E in
               let sort_key := timestamp +:+ "#" +:+ message_id in
               try_except
                 (write_sequence E message_text timestamp message_id sort_key)
                 (fun e =>
                    print ("Error processing request: " +:+ exn_msg e) ;;;
                    lift (response 500 (PDict [("error", PStr "Internal server error")]))))
              w'
        end.

End WithLib.
End ApiHandler.

(** ** [app/snapshot-writer/handler.py] *)
Module SnapshotWriter.
Import Py Aws.

(** The dict the handler returns to its trigger. *)
Record acknowledgment : Type := mkAck {
  statusCode : Z;
  body : string
}.

Section WithLib.
Context `{PyLib}.

Definition TABLE_NAME (E : env) : string :=
  environ_get E "TABLE_NAME" "messagewall-demo-dev".

Definition BUCKET_NAME (E : env) : string :=
  environ_get E "BUCKET_NAME" "messagewall-demo-dev".

Definition STATE_KEY : string := "state.json".

(** [item.get(k, dflt)] on an item of a response. *)
Definition item_get (item : gmap string attr) (k : string) (dflt : pyval) : pyval :=
  default dflt (py_of_attr <$> item !! k).

(** [sk.split("#")[1] if "#" in sk else sk] *)
Definition message_id_of (sk : pyval) : result pyval :=
  match contains "#" sk with
  | Raise e => Raise e
  | Ok true =>
      match split "#" sk with
      | Raise e => Raise e
      | Ok parts =>
          match index parts 1 with
          | Ok s => Ok (PStr s)
          | Raise e => Raise e
          end
      end
  | Ok false => Ok sk
  end.

(** One turn of the loop: the entry appended to [messages]. *)
Definition message_of_item (item : gmap string attr) : result pyval :=
  let sk := item_get item "SK" (PStr "") in
  match message_id_of sk with
  | Raise e => Raise e
  | Ok message_id =>
      Ok (PDict [("id", message_id);
                 ("text", item_get item "text" (PStr ""));
                 ("createdAt", item_get item "createdAt" (PStr ""))])
  end.

(** The loop over the items, [messages] being the accumulator. *)
Fixpoint collect_messages (messages : list pyval) (items : list (gmap string attr))
    : result (list pyval) :=
  match items with
  | [] => Ok messages
  | item :: rest =>
      match message_of_item item with
      | Raise e => Raise e
      | Ok m => collect_messages (messages ++ [m]) rest
      end
  end.

(** The body of the [try]. *)
Definition build_snapshot (E : env) : M acknowledgment :=
  metadata_response <-
    get_item E (TABLE_NAME E) ("METADATA", "METADATA") ["messageCount"] ;;
  let message_count :=
    item_get (default ∅ (Item metadata_response)) "messageCount" (PInt 0) in
  messages_response <-
    query E (TABLE_NAME E) "MESSAGE" false 5 ["SK"; "text"; "createdAt"] ;;
  messages <- lift (collect_messages [] (default [] (Items messages_response))) ;;
  count <- lift (int message_count) ;;
  let state := PDict [("messageCount", PInt count); ("messages", PList messages)] in
  text <- lift (json_dumps (Some 2%nat) state) ;;
  put_object E (BUCKET_NAME E) STATE_KEY
    (mkObject text "application/json" "no-cache, no-store, must-revalidate") ;;;
  print ("Wrote state.json: " +:+ str message_count +:+ " total messages, "
         +:+ pretty (length messages) +:+ " recent") ;;;
  count' <- lift (int message_count) ;;
  ack <- lift (json_dumps None
                 (PDict [("success", PBool true); ("messageCount", PInt count')])) ;;
  ret (mkAck 200 ack).

(** [handler(event, context)] *)
Definition handler (E : env) (event : pyval) : M acknowledgment :=
  received <- lift (json_dumps None event) ;;
  print ("Received event: " +:+ received) ;;;
  try_except (build_snapshot E)
    (fun e => print ("Error generating snapshot: " +:+ exn_msg e) ;;; raise e).

End WithLib.
End SnapshotWriter.

(** ** Vocabulary of the statements *)
Module Spec.
Import Py Aws.

(** The method the event carries, if any: the event is a dict, and
    [requestContext] and [http] are dicts where present. *)
Definition method_field (event : pyval) : result (option pyval) :=
  match get event "requestContext" (PDict []) with
  | Raise e => Raise e
  | Ok rc =>
      match get rc "http" (PDict []) with
      | Raise e => Raise e
      | Ok (PDict h) => Ok (assoc "method" h)
      | Ok v => Raise (no_attribute v "get")
      end
  end.

Definition is_method (event : pyval) (name : string) : Prop :=
  method_field event = Ok (Some (PStr name)).

Section WithLib.
Context `{PyLib}.

(** The text of the body once the transport encoding is undone: the event
    is a dict whose [body], where present, is a str. *)
Definition decoded_body (event : pyval) : option (string + decode_error) :=
  match event with
  | PDict d =>
      match default (PStr "{}") (assoc "body" d) with
      | PStr raw =>
          if truthy (default (PBool false) (assoc "isBase64Encoded" d))
          then Some (b64decode_utf8 raw)
          else Some (inl raw)
      | _ => None
      end
  | _ => None
  end.

(** The body of the request parses to the JSON value [j]. *)
Definition body_parses_to (event : pyval) (j : pyval) : Prop :=
  exists raw, decoded_body event = Some (inl raw) /\ loads_str raw = Some j.



(** The body is a JSON object whose [text] is the string [t] (an object
    without [text] has the text [""]). *)
Definition has_text (event : pyval) (t : string) : Prop :=
  exists o, body_parses_to event (PDict o)
            /\ default (PStr "") (assoc "text" o) = PStr t.

End WithLib.

Definition METADATA : string * string := ("METADATA", "METADATA").

(** The [messageCount] attribute of the counter record. *)
Definition message_count (t : gmap (string * string) (gmap string attr)) : option attr :=
  t !! METADATA ≫= fun it => it !! "messageCount".

(** Its value, 0 when the record or the attribute is absent. *)
Definition counter_value (t : gmap (string * string) (gmap string attr)) : Z :=
  match message_count t with
  | Some (AttrN n) => n
  | _ => 0
  end.

(** The counter, where present, is a number. *)
Definition counter_ok (t : gmap (string * string) (gmap string attr)) : Prop :=
  forall s, message_count t <> Some (AttrS s).

(** The records of the MESSAGE partition. *)
Definition messages_of (t : gmap (string * string) (gmap string attr))
    : gmap (string * string) (gmap string attr) :=
  filter (fun kv => kv.1.1 = "MESSAGE") t.

Definition stored_messages (t : gmap (string * string) (gmap string attr)) : Z :=
  Z.of_nat (size (messages_of t)).

(** By how much the counter exceeds the number of stored messages. *)
Definition overstatement (t : gmap (string * string) (gmap string attr)) : Z :=
  counter_value t - stored_messages t.

(** [text] and [createdAt] of every message record, where present, are
    strings. *)
Definition messages_ok (t : gmap (string * string) (gmap string attr)) : Prop :=
  forall sk it a n,
    t !! ("MESSAGE", sk) = Some it ->
    a = "text" \/ a = "createdAt" ->
    it !! a <> Some (AttrN n).

(** No service call fails among the [k] calls made from [w] on. *)
Definition no_fault (E : env) (w : world) (k : nat) : Prop :=
  forall i, (i < k)%nat -> fault_at E (length (calls w) + i) = None.

(** What precedes the first [c] of [s] (all of [s] if there is none), and
    what follows it. *)
Fixpoint before_first (c : ascii) (s : string) : string :=
  match s with
  | EmptyString => EmptyString
  | String c' s' => if Ascii.eqb c' c then EmptyString else String c' (before_first c s')
  end.

Fixpoint after_first (c : ascii) (s : string) : string :=
  match s with
  | EmptyString => EmptyString
  | String c' s' => if Ascii.eqb c' c then s' else after_first c s'
  end.

(** Number of occurrences of [c] in [s]. *)
Fixpoint occurrences (c : ascii) (s : string) : nat :=
  match s with
  | EmptyString => 0%nat
  | String c' s' => ((if Ascii.eqb c' c then 1 else 0) + occurrences c s')%nat
  end.

Section WithLib.
Context `{PyLib}.
Import ApiHandler.

Definition json_headers : list (string * string) :=
  [("Content-Type", "application/json")].

(** The response [response(status, {"error": msg})]. *)
Definition error_response (status : Z) (msg : string) : http_response :=
  mkResponse status json_headers
    (PStr (dumps_text None (PDict [("error", PStr msg)]))).

(** The response to an accepted message. *)
Definition success_response (message_id timestamp : string) : http_response :=
  mkResponse 200 json_headers
    (PStr (dumps_text None
             (PDict [("success", PBool true);
                     ("messageId", PStr message_id);
                     ("timestamp", PStr timestamp)]))).

(** The table once the counter is incremented, and once a message record is
    written. *)
Definition counted (t : gmap (string * string) (gmap string attr))
    : gmap (string * string) (gmap string attr) :=
  <[METADATA := <["messageCount" := AttrN (counter_value t + 1)]>
                  (default ∅ (t !! METADATA))]> t.

Definition message_record (text timestamp : string) : gmap string attr :=
  <["text" := AttrS text]> (<["createdAt" := AttrS timestamp]> ∅).

Definition stored (t : gmap (string * string) (gmap string attr))
    (sort_key text timestamp : string) : gmap (string * string) (gmap string attr) :=
  <[("MESSAGE", sort_key) := message_record text timestamp]> t.

(** The three calls of the write sequence. *)
Definition increment_call (E : env) : call :=
  UpdateItem (TABLE_NAME E) METADATA
    "SET messageCount = if_not_exists(messageCount, :zero) + :inc" 0 1.

Definition write_call (E : env) (sort_key text timestamp : string) : call :=
  PutItem (TABLE_NAME E)
    (<["PK" := AttrS "MESSAGE"]>
       (<["SK" := AttrS sort_key]> (message_record text timestamp))).

Definition notification (E : env) (message_id timestamp : string) : bus_entry :=
  mkEntry "messagewall.api-handler" "MessagePosted"
    (dumps_text None
       (PDict [("messageId", PStr message_id); ("timestamp", PStr timestamp)]))
    (EVENT_BUS_NAME E).

Definition notify_call (E : env) (message_id timestamp : string) : call :=
  PutEvents [notification E message_id timestamp].

(** The worlds the write sequence can end in: the message write failed, the
    notification failed, all three calls succeeded. *)
Definition after_failed_write (E : env) (w : world) (text : string) : world :=
  let ts := now_strftime E in
  let sk := ts +:+ "#" +:+ uuid4 E in
  mkWorld (counted (table w)) (bus w) (bucket w)
    (calls w ++ [increment_call E; write_call E sk text ts]) (log w).

Definition after_failed_notify (E : env) (w : world) (text : string) : world :=
  let ts := now_strftime E in
  let sk := ts +:+ "#" +:+ uuid4 E in
  mkWorld (stored (counted (table w)) sk text ts) (bus w) (bucket w)
    (calls w ++ [increment_call E; write_call E sk text ts;
                 notify_call E (uuid4 E) ts])
    (log w).

Definition after_notify (E : env) (w : world) (text : string) : world :=
  let ts := now_strftime E in
  let sk := ts +:+ "#" +:+ uuid4 E in
  mkWorld (stored (counted (table w)) sk text ts)
    (bus w ++ [notification E (uuid4 E) ts]) (bucket w)
    (calls w ++ [increment_call E; write_call E sk text ts;
                 notify_call E (uuid4 E) ts])
    (log w).

Definition logged (line : string) (w : world) : world :=
  mkWorld (table w) (bus w) (bucket w) (calls w) (log w ++ [line]).

(** How a run of the handler can end: without touching the world (the
    answers 200 to OPTIONS, 405 and 400, and the exceptions nothing
    catches), or in one of the four ends of the write sequence. *)
Inductive outcome (E : env) (event : pyval) (w : world)
    : result http_response -> world -> Prop :=
| untouched r :
    (forall resp, r = Ok resp ->
       statusCode resp = 405 \/ statusCode resp = 400
       \/ (statusCode resp = 200 /\ ~ is_method event "POST")) ->
    outcome E event w r w
| increment_failed e :
    outcome E event w (Ok (error_response 500 "Internal server error"))
      (logged ("Error processing request: " +:+ exn_msg e)
         (record_call (increment_call E) w))
| write_failed e text :
    counter_ok (table w) ->
    outcome E event w (Ok (error_response 500 "Internal server error"))
      (logged ("Error processing request: " +:+ exn_msg e)
         (after_failed_write E w text))
| notify_failed e text :
    counter_ok (table w) ->
    outcome E event w (Ok (error_response 500 "Internal server error"))
      (logged ("Error processing request: " +:+ exn_msg e)
         (after_failed_notify E w text))
| accepted text :
    counter_ok (table w) ->
    is_method event "POST" ->
    outcome E event w (Ok (success_response (uuid4 E) (now_strftime E)))
      (after_notify E w text).


End WithLib.

Section Snapshot.
Context `{PyLib}.

(** The id the snapshot publishes for a sort key: the second component of
    the key split at [#], or the whole key when it has no [#]. *)
Definition published_id (sk : string) : string :=
  if str_contains "#" sk then before_first "#" (after_first "#" sk) else sk.

(** A string attribute of an item, [""] when it is absent. *)
Definition string_field (it : gmap string attr) (k : string) : string :=
  match it !! k with
  | Some (AttrS s) => s
  | _ => ""
  end.

(** The entry of [messages] for a record of the MESSAGE partition. *)
Definition entry_of (r : string * gmap string attr) : pyval :=
  PDict [("id", PStr (published_id r.1));
         ("text", PStr (string_field r.2 "text"));
         ("createdAt", PStr (string_field r.2 "createdAt"))].

(** The first [n] records of the MESSAGE partition in descending order of
    sort key. *)
Definition newest (n : nat) (t : gmap (string * string) (gmap string attr))
    : list (string * gmap string attr) :=
  take n (scan "MESSAGE" false t).

Definition snapshot_document (t : gmap (string * string) (gmap string attr)) : pyval :=
  PDict [("messageCount", PInt (counter_value t));
         ("messages", PList (entry_of <$> newest 5 t))].

(** The object the snapshot builder publishes for a table. *)
Definition state_object (t : gmap (string * string) (gmap string attr)) : s3_object :=
  mkObject (dumps_text (Some 2%nat) (snapshot_document t))
    "application/json" "no-cache, no-store, must-revalidate".

(** Where it publishes it. *)
Definition state_location (E : env) : string * string :=
  (SnapshotWriter.BUCKET_NAME E, SnapshotWriter.STATE_KEY).

Definition snapshot_ack (t : gmap (string * string) (gmap string attr))
    : SnapshotWriter.acknowledgment :=
  SnapshotWriter.mkAck 200
    (dumps_text None
       (PDict [("success", PBool true); ("messageCount", PInt (counter_value t))])).

(** The three calls of the snapshot builder. *)
Definition read_call (E : env) : call :=
  GetItem (SnapshotWriter.TABLE_NAME E) METADATA ["messageCount"].

Definition scan_call (E : env) : call :=
  Query (SnapshotWriter.TABLE_NAME E) "MESSAGE" false 5 ["SK"; "text"; "createdAt"].

Definition publish_call (E : env) (t : gmap (string * string) (gmap string attr)) : call :=
  PutObject (SnapshotWriter.BUCKET_NAME E) SnapshotWriter.STATE_KEY (state_object t).

Definition wrote_line (t : gmap (string * string) (gmap string attr)) : string :=
  "Wrote state.json: " +:+ pretty (counter_value t) +:+ " total messages, "
  +:+ pretty (length (newest 5 t)) +:+ " recent".

(** The world after a snapshot was published. *)
Definition published (E : env) (w : world) : world :=
  mkWorld (table w) (bus w)
    (<[state_location E := state_object (table w)]> (bucket w))
    (calls w ++ [read_call E; scan_call E; publish_call E (table w)])
    (log w ++ [wrote_line (table w)]).

(** A record whose [text] and [createdAt], where present, are strings. *)
Definition row_ok (r : string * gmap string attr) : Prop :=
  forall a n, a = "text" \/ a = "createdAt" -> r.2 !! a <> Some (AttrN n).

(** The item the query returns for a record. *)
Definition returned_item (r : string * gmap string attr) : gmap string attr :=
  project ["SK"; "text"; "createdAt"] (full_item ("MESSAGE", r.1) r.2).

(** What the handler reads as [message_count]. *)
Definition read_count (t : gmap (string * string) (gmap string attr)) : pyval :=
  match message_count t with
  | Some a => py_of_attr a
  | None => PInt 0
  end.

(** No service call fails before the call at position [i] from [w] on,
    which fails with [e]. *)
Definition first_fault (E : env) (w : world) (i : nat) (e : exn) : Prop :=
  fault_at E (length (calls w) + i) = Some e /\ no_fault E w i.

(** A computation that leaves the table and the bus as they are. *)
Definition keeps_store {A} (m : M A) : Prop :=
  forall w, table (m w).2 = table w /\ bus (m w).2 = bus w.

(** The worlds the two handlers can reach from an empty table, in any
    interleaving, with any events and any outside conditions. *)
Inductive reachable : world -> Prop :=
| reach_empty w : table w = ∅ -> reachable w
| reach_ingest E event w :
    reachable w -> reachable (ApiHandler.handler E event w).2
| reach_snapshot E event w :
    reachable w -> reachable (SnapshotWriter.handler E event w).2.

End Snapshot.

End Spec.

(** ** A small library instance and sample requests, to run the model *)
Module Sample.
Import Py Aws.

Definition quote : string := String (ascii_of_nat 34) EmptyString.

Definition quoted (s : string) : string := quote +:+ s +:+ quote.

Definition join (sep : string) (l : list string) : string := String.concat sep l.

Definition spaces (n : nat) : string := string_of_list_ascii (replicate n " "%char).

(** A printer after [json.dumps] for values without floats whose strings
    need no escape: [", "] and [": "] without [indent], one entry a line with
    [indent]. *)
Fixpoint dumps (i : option nat) (level : nat) (v : pyval) : string :=
  let nl k := match i with
              | Some n => String (ascii_of_nat 10) (spaces (n * k))
              | None => ""
              end in
  let sep := match i with Some _ => "," | None => ", " end in
  match v with
  | PNone => "null"
  | PBool b => if b then "true" else "false"
  | PInt z | PDecimal z => pretty z
  | PFloat _ => "0.0"
  | PStr s => quoted s
  | PList [] => "[]"
  | PList l =>
      "[" +:+ nl (S level)
      +:+ join (sep +:+ nl (S level)) (map (dumps i (S level)) l)
      +:+ nl level +:+ "]"
  | PDict [] => "{}"
  | PDict d =>
      "{" +:+ nl (S level)
      +:+ join (sep +:+ nl (S level))
            (map (fun kv => quoted (fst kv) +:+ ": " +:+ dumps i (S level) (snd kv)) d)
      +:+ nl level +:+ "}"
  end.

Definition body_of (text : pyval) : string := dumps None 0 (PDict [("text", text)]).

(** [json.loads] on the handful of bodies used below. *)
Definition loads (s : string) : option pyval :=
  if String.eqb s "{}" then Some (PDict [])
  else if String.eqb s "[]" then Some (PList [])
  else if String.eqb s "7" then Some (PInt 7)
  else if String.eqb s (body_of (PStr "hello")) then Some (PDict [("text", PStr "hello")])
  else if String.eqb s (body_of (PStr "   ")) then Some (PDict [("text", PStr "   ")])
  else if String.eqb s (body_of (PInt 5)) then Some (PDict [("text", PInt 5)])
  else None.

(** The number of [[] and [{] the text opens with. *)
Fixpoint opening (s : string) : nat :=
  match s with
  | String c r =>
      if (Ascii.eqb c "["%char || Ascii.eqb c "{"%char)%bool then S (opening r) else 0%nat
  | EmptyString => 0%nat
  end.

(** The interpreter's default recursion limit, [sys.getrecursionlimit()]. *)
Definition recursion_limit : nat := 1000.

(** What [json.loads] raises on the bodies [loads] has no value for: a text
    that opens more arrays and objects than the recursion limit exhausts the
    decoder's recursion before any syntax error is found. *)
Definition raises (s : string) : loads_failure :=
  if (recursion_limit <=? opening s)%nat then NestedTooDeep else NotJson.

(** ['[' * 2000] *)
Definition deeply_nested : string := string_of_list_ascii (replicate 2000 "["%char).

(** [b64decode] then [decode] on three inputs: the encoding of [{}], a
    string of bad length, and the encoding of the byte 255. *)
Definition b64 (s : string) : string + decode_error :=
  if String.eqb s "e30=" then inl "{}"
  else if String.eqb s "/w==" then inr BadUtf8
  else inr BadBase64.

#[export] Instance lib : PyLib := {|
  loads_str := loads;
  loads_raises := raises;
  dumps_text := fun i v => dumps i 0 v;
  b64decode_utf8 := b64;
  int_of_str := fun _ => None;
  repr_text := fun v => dumps None 0 v
|}.

Definition request (method : string) (fields : list (string * pyval)) : pyval :=
  PDict (("requestContext", PDict [("http", PDict [("method", PStr method)])]) :: fields).

Definition post (raw : string) : pyval := request "POST" [("body", PStr raw)].

(** Nothing fails. *)
Definition calm : env :=
  mkEnv ∅ (fun _ => None) "2024-01-02T03:04:05.000006Z"
    "123e4567-e89b-42d3-a456-426614174000".

(** The call at position [n] fails. *)
Definition failing (n : nat) : env :=
  mkEnv ∅ (fun i => if Nat.eqb i n then Some (mkExn ClientError "Throttled") else None)
    "2024-01-02T03:04:05.000006Z" "123e4567-e89b-42d3-a456-426614174000".

Definition empty_world : world := mkWorld ∅ [] ∅ [] [].

Definition hello : pyval := post (body_of (PStr "hello")).

(** The world after one accepted post. *)
Definition one_message : world := (ApiHandler.handler calm hello empty_world).2.

(** Nothing fails, at the given time and with the given id. *)
Definition at_time (ts id : string) : env := mkEnv ∅ (fun _ => None) ts id.

(** The world after the posts of the given (time, id) pairs, in order. *)
Definition after_posts (l : list (string * string)) : world :=
  foldl (fun w p => (ApiHandler.handler (at_time p.1 p.2) hello w).2) empty_world l.

(** A table into which a record with a number as [text] was put by hand. *)
Definition number_as_text : world :=
  mkWorld {[ ("MESSAGE", "t1#a") := {[ "text" := AttrN 5 ]} ]} [] ∅ [] [].

(** A later time and another id. *)
Definition later : env :=
  at_time "2024-01-03T00:00:00.000000Z" "0f8fad5b-d9cb-469f-a165-70867728950e".

Definition seven_messages : world :=
  after_posts [("t1", "a"); ("t2", "b"); ("t3", "c"); ("t4", "d");
               ("t5", "e"); ("t6", "f"); ("t7", "g")].

End Sample.

(** ** Vocabulary for the runs of the handlers as a whole *)
Module Behaviour.
Import Py Aws Spec.

Section WithLib.
Context `{PyLib}.

(** A text the write sequence is run on: trimmed, not empty, at most 500
    characters. *)
Definition valid_text (text : string) : Prop :=
  text <> "" /\ (String.length text <= 500)%nat /\ str_strip text = text.

(** The answers that reject a request. *)
Definition rejections : list (Z * string) :=
  [(405, "Method not allowed");
   (400, "Invalid JSON");
   (400, "Message text is required");
   (400, "Message too long (max 500 chars)")].

(** Every way a run of the ingest handler ends, with the world it leaves. *)
Inductive ending (E : env) (event : pyval) (w : world)
    : result ApiHandler.http_response -> world -> Prop :=
| end_raised e :
    exn_cls e = AttributeError \/ exn_cls e = TypeError
    \/ exn_cls e = RecursionError ->
    ending E event w (Raise e) w
| end_preflight :
    ending E event w (Ok (ApiHandler.mkResponse 200 json_headers (PStr ""))) w
| end_rejected status msg :
    (status, msg) ∈ rejections ->
    ending E event w (Ok (error_response status msg)) w
| end_increment_failed e text :
    valid_text text ->
    ending E event w (Ok (error_response 500 "Internal server error"))
      (logged ("Error processing request: " +:+ exn_msg e)
         (record_call (increment_call E) w))
| end_write_failed e text :
    valid_text text ->
    counter_ok (table w) ->
    ending E event w (Ok (error_response 500 "Internal server error"))
      (logged ("Error processing request: " +:+ exn_msg e)
         (after_failed_write E w text))
| end_notify_failed e text :
    valid_text text ->
    counter_ok (table w) ->
    ending E event w (Ok (error_response 500 "Internal server error"))
      (logged ("Error processing request: " +:+ exn_msg e)
         (after_failed_notify E w text))
| end_accepted text :
    valid_text text ->
    counter_ok (table w) ->
    ending E event w (Ok (success_response (uuid4 E) (now_strftime E)))
      (after_notify E w text).

(** The three calls of the write sequence for a text. *)
Definition write_calls (E : env) (text : string) : list call :=
  let ts := now_strftime E in
  [increment_call E;
   write_call E (ts +:+ "#" +:+ uuid4 E) text ts;
   notify_call E (uuid4 E) ts].

(** What [item.get(k, "")] gives for an attribute of any type. *)
Definition raw_field (it : gmap string attr) (k : string) : pyval :=
  default (PStr "") (py_of_attr <$> it !! k).

(** The entry of [messages] for a record, whatever the types of its
    attributes. *)
Definition raw_entry (r : string * gmap string attr) : pyval :=
  PDict [("id", PStr (published_id r.1));
         ("text", raw_field r.2 "text");
         ("createdAt", raw_field r.2 "createdAt")].

Definition raw_document (n : Z) (t : gmap (string * string) (gmap string attr)) : pyval :=
  PDict [("messageCount", PInt n); ("messages", PList (raw_entry <$> newest 5 t))].

Definition object_of (document : pyval) : s3_object :=
  mkObject (dumps_text (Some 2%nat) document)
    "application/json" "no-cache, no-store, must-revalidate".

(** The worlds a run of the body of the snapshot builder's [try] can end
    in: after the read, after the query, after a failed and after a
    successful write of the object. *)
Definition after_read (E : env) (w : world) : world :=
  record_call (read_call E) w.

Definition after_scan (E : env) (w : world) : world :=
  record_call (scan_call E) (after_read E w).

Definition after_failed_publish (E : env) (w : world) (n : Z) : world :=
  record_call
    (PutObject (SnapshotWriter.BUCKET_NAME E) SnapshotWriter.STATE_KEY
       (object_of (raw_document n (table w))))
    (after_scan E w).

Definition after_publish (E : env) (w : world) (n : Z) : world :=
  mkWorld (table w) (bus w)
    (<[state_location E := object_of (raw_document n (table w))]> (bucket w))
    (calls (after_failed_publish E w n))
    (log w ++ ["Wrote state.json: " +:+ str (read_count (table w))
               +:+ " total messages, " +:+ pretty (length (newest 5 (table w)))
               +:+ " recent"]).

Definition count_ack (n : Z) : SnapshotWriter.acknowledgment :=
  SnapshotWriter.mkAck 200
    (dumps_text None (PDict [("success", PBool true); ("messageCount", PInt n)])).

Definition not_serializable : exn :=
  mkExn TypeError "Object of type Decimal is not JSON serializable".

End WithLib.

(** A string that does not begin with whitespace. *)
Definition starts_clean (s : string) : Prop :=
  match s with
  | EmptyString => True
  | String c _ => isspace c = false
  end.

End Behaviour.

(** ** Facts about the store: order of sort keys, range scan *)
Section Store.
Import Py Aws Spec.

Lemma ascii_compare_N a b :
  Ascii.compare a b = N.compare (N_of_ascii a) (N_of_ascii b).
Proof. reflexivity. Qed.

Lemma ascii_compare_eq a b : Ascii.compare a b = Eq -> a = b.
Proof.
  rewrite ascii_compare_N. intros Hc. apply N.compare_eq in Hc.
  rewrite <- (ascii_N_embedding a), <- (ascii_N_embedding b). congruence.
Qed.

Lemma string_leb_trans s1 s2 s3 :
  String.leb s1 s2 = true -> String.leb s2 s3 = true -> String.leb s1 s3 = true.
Proof.
  unfold String.leb. revert s2 s3.
  induction s1 as [|a s1 IH]; intros [|b s2] [|c s3]; simpl; try congruence.
  destruct (Ascii.compare a b) eqn:Hab; try congruence;
    destruct (Ascii.compare b c) eqn:Hbc; try congruence;
    destruct (Ascii.compare a c) eqn:Hac; try congruence;
    try (apply ascii_compare_eq in Hab; subst b);
    try (apply ascii_compare_eq in Hbc; subst c);
    try congruence; try apply IH;
    rewrite ascii_compare_N in *;
    repeat match goal with
           | Hx : N.compare _ _ = Eq |- _ => apply N.compare_eq in Hx
           | Hx : N.compare _ _ = Lt |- _ => rewrite N.compare_lt_iff in Hx
           | Hx : N.compare _ _ = Gt |- _ => rewrite N.compare_gt_iff in Hx
           end; lia.
Qed.

#[local] Instance sk_ge_trans : Transitive sk_ge.
Proof. intros x y z Hxy Hyz. unfold sk_ge, sk_le in *. eapply string_leb_trans; eauto. Qed.

#[local] Instance sk_ge_total : Total sk_ge.
Proof. intros x y. unfold sk_ge, sk_le. destruct (String.leb_total y.1 x.1); auto. Qed.

Lemma elem_of_partition_rows pk t sk it :
  (sk, it) ∈ partition_rows pk t <-> t !! (pk, sk) = Some it.
Proof.
  unfold partition_rows. rewrite list_elem_of_fmap. split.
  - intros ([[pk' sk'] it'] & Heq & Hin). simpl in Heq. injection Heq as -> ->.
    apply list_elem_of_filter in Hin as [Hpk Hin]. simpl in Hpk. subst pk'.
    apply elem_of_map_to_list. exact Hin.
  - intros Hl. exists ((pk, sk), it). split; [reflexivity|].
    apply list_elem_of_filter. split; [reflexivity|].
    apply elem_of_map_to_list. exact Hl.
Qed.

Lemma elem_of_scan pk t r :
  r ∈ scan pk false t <-> t !! (pk, r.1) = Some r.2.
Proof.
  unfold scan. rewrite merge_sort_Permutation. destruct r as [sk it].
  apply elem_of_partition_rows.
Qed.

Lemma scan_sorted pk t : StronglySorted sk_ge (scan pk false t).
Proof. unfold scan. apply StronglySorted_merge_sort; apply _. Qed.

(** The first [n] records of a descending scan are the [n] records of the
    partition with the largest sort keys. *)
Lemma newest_spec n t :
  (length (newest n t) <= n)%nat
  /\ StronglySorted sk_ge (newest n t)
  /\ (forall r, r ∈ newest n t -> t !! ("MESSAGE", r.1) = Some r.2)
  /\ (forall sk it, t !! ("MESSAGE", sk) = Some it ->
        (sk, it) ∈ newest n t
        \/ (length (newest n t) = n
            /\ forall r, r ∈ newest n t -> String.leb sk r.1 = true)).
Proof.
  unfold newest.
  pose proof (scan_sorted "MESSAGE" t) as Hs.
  rewrite <- (take_drop n (scan "MESSAGE" false t)) in Hs.
  apply StronglySorted_app in Hs as (Hs12 & Hs1 & _).
  repeat split.
  - rewrite length_take. lia.
  - exact Hs1.
  - intros r Hr. apply elem_of_scan. eapply subseteq_take, Hr.
  - intros sk it Hl.
    assert (Hin : (sk, it) ∈ scan "MESSAGE" false t) by (apply elem_of_scan; exact Hl).
    rewrite <- (take_drop n (scan "MESSAGE" false t)) in Hin.
    apply elem_of_app in Hin as [Hin|Hin]; [left; exact Hin|right].
    split.
    + rewrite length_take. apply Nat.min_l.
      destruct (decide (n <= length (scan "MESSAGE" false t))%nat) as [Hle|Hgt];
        [exact Hle|].
      rewrite drop_ge in Hin by lia. inversion Hin.
    + intros r Hr. exact (Hs12 _ _ Hr Hin).
Qed.

End Store.

(** ** Facts about the ingest handler *)
Section Ingest.
Import Py Aws Spec ApiHandler.
Context `{PyLib}.

Lemma request_method_spec event dflt w :
  request_method event dflt w =
    (match method_field event with
     | Ok mo => Ok (default dflt mo)
     | Raise e => Raise e
     end, w).
Proof.
  unfold request_method, method_field, bind, lift.
  destruct (get event "requestContext" (PDict [])) as [rc|e]; [|reflexivity].
  destruct (get rc "http" (PDict [])) as [h|e]; [|reflexivity].
  destruct h; reflexivity.
Qed.

Lemma decoded_body_dict event b :
  decoded_body event = Some b -> exists d, event = PDict d.
Proof. destruct event; try discriminate. eauto. Qed.

(** The first [try] on a body that parses to [j]. *)
Lemma parse_body_parses event j w :
  body_parses_to event j ->
  parse_body event w =
    (match get j "text" (PStr "") with
     | Ok text => strip text
     | Raise e => Raise e
     end, w).
Proof.
  intros (raw & Hd & Hl).
  destruct (decoded_body_dict _ _ Hd) as [d ->].
  unfold parse_body, bind, lift, ret. simpl in *.
  destruct (default (PStr "{}") (assoc "body" d)) as [| | | | |s| |]; try discriminate.
  destruct (truthy (default (PBool false) (assoc "isBase64Encoded" d))).
  - injection Hd as Hd. simpl. rewrite Hd. simpl. rewrite Hl.
    destruct (get j "text" (PStr "")); reflexivity.
  - injection Hd as ->. simpl. rewrite Hl.
    destruct (get j "text" (PStr "")); reflexivity.
Qed.

Lemma parse_body_text event t w :
  has_text event t -> parse_body event w = (Ok (str_strip t), w).
Proof.
  intros (o & Hp & Ht). rewrite (parse_body_parses _ _ _ Hp). simpl.
  rewrite Ht. reflexivity.
Qed.




(** Past the two method tests, the handler is what follows them. *)
Lemma handler_post E event w :
  is_method event "POST" ->
  handler E event w =
    match parse_body event w with
    | (Raise e, w') =>
        if is_JSONDecodeError e || is_ValueError e
        then (Ok (error_response 400 "Invalid JSON"), w')
        else (Raise e, w')
    | (Ok message_text, w') =>
        if String.eqb message_text ""
        then (Ok (error_response 400 "Message text is required"), w')
        else if (500 <? String.length message_text)%nat
        then (Ok (error_response 400 "Message too long (max 500 chars)"), w')
        else
          try_except
            (write_sequence E message_text (now_strftime E) (uuid4 E)
               (now_strftime E +:+ "#" +:+ uuid4 E))
            (fun e =>
               print ("Error processing request: " +:+ exn_msg e) ;;;
               lift (response 500 (PDict [("error", PStr "Internal server error")])))
            w'
    end.
Proof.
  intros Hm. unfold is_method in Hm. unfold handler, bind at 1.
  rewrite request_method_spec, Hm. simpl.
  unfold bind at 1. rewrite request_method_spec, Hm. simpl.
  destruct (parse_body event w) as [[t|e] w']; [|reflexivity].
  change (truthy (PStr t)) with (negb (String.eqb t "")).
  rewrite negb_involutive.
  destruct (String.eqb t ""); [reflexivity|].
  destruct (500 <? String.length t)%nat; reflexivity.
Qed.

Lemma update_item_counted E w :
  counter_ok (table w) ->
  fault_at E (length (calls w)) = None ->
  update_item E (TABLE_NAME E) METADATA "messageCount" 0 1 w =
    (Ok tt, set_table (counted (table w)) (record_call (increment_call E) w)).
Proof.
  intros Hok Hf. unfold update_item, service. rewrite Hf.
  unfold counted, counter_value, counter_ok, message_count in *. simpl.
  destruct (table w !! METADATA) as [it|] eqn:Hit; simpl in *.
  - destruct (it !! "messageCount") as [[s|n]|] eqn:Hc.
    + exfalso. apply (Hok s). reflexivity.
    + reflexivity.
    + reflexivity.
  - rewrite lookup_empty. reflexivity.
Qed.

Lemma update_item_fault E w e :
  fault_at E (length (calls w)) = Some e ->
  update_item E (TABLE_NAME E) METADATA "messageCount" 0 1 w =
    (Raise e, record_call (increment_call E) w).
Proof. intros Hf. unfold update_item, service. rewrite Hf. reflexivity. Qed.

Lemma message_record_keys sort_key text timestamp :
  delete "PK" (delete "SK"
    (<["PK" := AttrS "MESSAGE"]>
       (<["SK" := AttrS sort_key]> (message_record text timestamp))))
  = message_record text timestamp.
Proof.
  unfold message_record. apply map_eq. intros k.
  repeat (rewrite lookup_delete || rewrite lookup_insert).
  repeat case_decide; subst; try reflexivity; try discriminate; congruence.
Qed.

Lemma put_item_stored E w sort_key text timestamp :
  fault_at E (length (calls w)) = None ->
  put_item E (TABLE_NAME E)
    (<["PK" := AttrS "MESSAGE"]>
       (<["SK" := AttrS sort_key]> (message_record text timestamp))) w =
    (Ok tt, set_table (stored (table w) sort_key text timestamp)
              (record_call (write_call E sort_key text timestamp) w)).
Proof.
  intros Hf. unfold put_item, service. rewrite Hf.
  rewrite lookup_insert_eq.
  rewrite lookup_insert_ne by discriminate. rewrite lookup_insert_eq.
  rewrite message_record_keys. reflexivity.
Qed.

Lemma put_item_fault E w it e :
  fault_at E (length (calls w)) = Some e ->
  put_item E (TABLE_NAME E) it w = (Raise e, record_call (PutItem (TABLE_NAME E) it) w).
Proof. intros Hf. unfold put_item, service. rewrite Hf. reflexivity. Qed.

(** The write sequence when the increment succeeds, by which later call
    fails, if any. *)
Lemma write_sequence_run E w text :
  counter_ok (table w) ->
  fault_at E (length (calls w)) = None ->
  write_sequence E text (now_strftime E) (uuid4 E)
    (now_strftime E +:+ "#" +:+ uuid4 E) w =
  match fault_at E (length (calls w) + 1) with
  | Some e => (Raise e, after_failed_write E w text)
  | None =>
      match fault_at E (length (calls w) + 2) with
      | Some e => (Raise e, after_failed_notify E w text)
      | None => (Ok (success_response (uuid4 E) (now_strftime E)), after_notify E w text)
      end
  end.
Proof.
  intros Hok H0. unfold write_sequence, bind.
  change ("METADATA", "METADATA") with METADATA.
  rewrite (update_item_counted _ _ Hok H0).
  fold (message_record text (now_strftime E)).
  set (w1 := set_table _ _).
  assert (Hlen1 : length (calls w1) = (length (calls w) + 1)%nat).
  { subst w1. simpl. rewrite length_app. reflexivity. }
  destruct (fault_at E (length (calls w) + 1)) as [e|] eqn:H1.
  { rewrite put_item_fault with (e := e) by (rewrite Hlen1; exact H1).
    subst w1. unfold after_failed_write, record_call, set_table, write_call. simpl.
    rewrite <- app_assoc. reflexivity. }
  rewrite put_item_stored by (rewrite Hlen1; exact H1).
  set (w2 := set_table _ _).
  assert (Hlen2 : length (calls w2) = (length (calls w) + 2)%nat).
  { subst w2 w1. simpl. rewrite !length_app. simpl. lia. }
  unfold lift, json_dumps. simpl serializable. cbv iota.
  unfold put_events, service. rewrite Hlen2.
  destruct (fault_at E (length (calls w) + 2)) as [e|] eqn:H2.
  - subst w2 w1. unfold after_failed_notify, record_call, set_table. simpl.
    rewrite <- !app_assoc. reflexivity.
  - subst w2 w1. unfold after_notify, record_call, set_table. simpl.
    rewrite <- !app_assoc. reflexivity.
Qed.

Lemma message_count_counted t :
  message_count (counted t) = Some (AttrN (counter_value t + 1)).
Proof.
  unfold message_count, counted. rewrite lookup_insert_eq. simpl.
  apply lookup_insert_eq.
Qed.

Lemma counter_value_counted t : counter_value (counted t) = counter_value t + 1.
Proof. unfold counter_value at 1. rewrite message_count_counted. reflexivity. Qed.

Lemma message_count_stored t sk text ts :
  message_count (stored t sk text ts) = message_count t.
Proof.
  unfold message_count, stored. rewrite lookup_insert_ne by discriminate.
  reflexivity.
Qed.

Lemma counter_value_stored t sk text ts :
  counter_value (stored t sk text ts) = counter_value t.
Proof. unfold counter_value. rewrite message_count_stored. reflexivity. Qed.

Lemma messages_of_counted t : messages_of (counted t) = messages_of t.
Proof.
  unfold messages_of, counted. apply map_eq. intros [pk sk].
  destruct (decide (pk = "MESSAGE")) as [->|Hne].
  - rewrite !map_lookup_filter. rewrite lookup_insert_ne by discriminate.
    reflexivity.
  - rewrite !map_lookup_filter.
    destruct (_ !! (pk, sk)) as [x|], (t !! (pk, sk)) as [y|]; simpl;
      rewrite ?option_guard_False by (simpl; congruence); reflexivity.
Qed.

Lemma stored_messages_counted t : stored_messages (counted t) = stored_messages t.
Proof. unfold stored_messages. rewrite messages_of_counted. reflexivity. Qed.

Lemma messages_of_stored t sk text ts :
  messages_of (stored t sk text ts)
  = <[("MESSAGE", sk) := message_record text ts]> (messages_of t).
Proof.
  unfold messages_of, stored. apply map_filter_insert_True. reflexivity.
Qed.

Lemma stored_messages_stored t sk text ts :
  t !! ("MESSAGE", sk) = None ->
  stored_messages (stored t sk text ts) = stored_messages t + 1.
Proof.
  intros Hfresh. unfold stored_messages. rewrite messages_of_stored.
  rewrite map_size_insert_None.
  - lia.
  - unfold messages_of. rewrite map_lookup_filter, Hfresh. reflexivity.
Qed.

(** A valid post reaches the write sequence. *)
Lemma handler_valid_post E event w t :
  is_method event "POST" ->
  has_text event t ->
  str_strip t <> "" ->
  (String.length (str_strip t) <= 500)%nat ->
  handler E event w =
    try_except
      (write_sequence E (str_strip t) (now_strftime E) (uuid4 E)
         (now_strftime E +:+ "#" +:+ uuid4 E))
      (fun e =>
         print ("Error processing request: " +:+ exn_msg e) ;;;
         lift (response 500 (PDict [("error", PStr "Internal server error")])))
      w.
Proof.
  intros Hm Ht Hne Hlen. rewrite (handler_post _ _ _ Hm).
  rewrite (parse_body_text _ _ _ Ht).
  destruct (String.eqb_spec (str_strip t) "") as [Heq|_]; [contradiction|].
  destruct (Nat.ltb_spec 500 (String.length (str_strip t))); [lia|].
  reflexivity.
Qed.

Lemma no_fault_0 E w k : no_fault E w (S k) -> fault_at E (length (calls w)) = None.
Proof. intros Hf. rewrite <- (Nat.add_0_r (length (calls w))). apply Hf. lia. Qed.

(** C1. A POST whose body parses as a JSON object with a string [text] that
    is non-empty after trimming and at most 500 characters long, on a store
    whose counter is absent or a number and with no service call failing,
    makes exactly three calls in this order: the increment of [messageCount]
    on the METADATA record (a missing counter counting as 0), the write of
    the message record under the sort key [<timestamp>#<id>] with the fields
    [text] and [createdAt], and one [put_events] with a single entry whose
    detail is [{messageId, timestamp}]; it then returns 200 with the body
    [{success: true, messageId, timestamp}]. *)
Theorem accepted_post_three_effects E event w t :
  is_method event "POST" ->
  has_text event t ->
  str_strip t <> "" ->
  (String.length (str_strip t) <= 500)%nat ->
  counter_ok (table w) ->
  no_fault E w 3 ->
  let ts := now_strftime E in
  let id := uuid4 E in
  let sk := ts +:+ "#" +:+ id in
  exists w',
    handler E event w = (Ok (success_response id ts), w')
    /\ calls w' = (calls w ++ [increment_call E;
                               write_call E sk (str_strip t) ts;
                               notify_call E id ts])%list
    /\ message_count (table w') = Some (AttrN (counter_value (table w) + 1))
    /\ table w' !! ("MESSAGE", sk)
       = Some (<["text" := AttrS (str_strip t)]> (<["createdAt" := AttrS ts]> ∅))
    /\ (forall k, k <> METADATA -> k <> ("MESSAGE", sk) -> table w' !! k = table w !! k)
    /\ bus w' = (bus w ++ [mkEntry "messagewall.api-handler" "MessagePosted"
                             (dumps_text None
                                (PDict [("messageId", PStr id); ("timestamp", PStr ts)]))
                             (EVENT_BUS_NAME E)])%list
    /\ bucket w' = bucket w
    /\ log w' = log w.
Proof.
  intros Hm Ht Hne Hlen Hok Hf ts id sk.
  exists (after_notify E w (str_strip t)).
  rewrite (handler_valid_post _ _ _ _ Hm Ht Hne Hlen).
  unfold try_except.
  rewrite (write_sequence_run _ _ _ Hok (no_fault_0 _ _ _ Hf)).
  rewrite (Hf 1%nat) by lia. rewrite (Hf 2%nat) by lia.
  unfold after_notify. simpl.
  repeat split.
  - rewrite message_count_stored. apply message_count_counted.
  - unfold stored. apply lookup_insert_eq.
  - intros k Hk1 Hk2. unfold stored, counted.
    rewrite lookup_insert_ne by (intros <-; apply Hk2; reflexivity).
    rewrite lookup_insert_ne by (intros <-; apply Hk1; reflexivity).
    reflexivity.
Qed.

(** C2, as amended.  When the increment succeeds and a later call of the
    write sequence fails, the handler returns 500 with
    [{error: "Internal server error"}], logs the failure and rolls nothing
    back: the counter stays incremented.  If the message write failed, no
    message record was added, so the counter is overstated by one more than
    before; if the notification failed, the message record stays stored as
    well, so under a fresh sort key the overstatement is what it was. *)
Theorem failed_write_sequence_not_rolled_back E event w t e :
  is_method event "POST" ->
  has_text event t ->
  str_strip t <> "" ->
  (String.length (str_strip t) <= 500)%nat ->
  counter_ok (table w) ->
  fault_at E (length (calls w)) = None ->
  let ts := now_strftime E in
  let sk := ts +:+ "#" +:+ uuid4 E in
  let failure := Ok (error_response 500 "Internal server error") in
  (fault_at E (length (calls w) + 1) = Some e ->
   exists w',
     handler E event w = (failure, w')
     /\ counter_value (table w') = counter_value (table w) + 1
     /\ messages_of (table w') = messages_of (table w)
     /\ overstatement (table w') = overstatement (table w) + 1
     /\ bus w' = bus w
     /\ log w' = (log w ++ ["Error processing request: " +:+ exn_msg e])%list)
  /\ (fault_at E (length (calls w) + 1) = None ->
      fault_at E (length (calls w) + 2) = Some e ->
      exists w',
        handler E event w = (failure, w')
        /\ counter_value (table w') = counter_value (table w) + 1
        /\ table w' !! ("MESSAGE", sk) = Some (message_record (str_strip t) ts)
        /\ (table w !! ("MESSAGE", sk) = None ->
            overstatement (table w') = overstatement (table w))
        /\ bus w' = bus w
        /\ log w' = (log w ++ ["Error processing request: " +:+ exn_msg e])%list).
Proof.
  intros Hm Ht Hne Hlen Hok H0 ts sk failure. split.
  - intros H1.
    exists (logged ("Error processing request: " +:+ exn_msg e)
              (after_failed_write E w (str_strip t))).
    rewrite (handler_valid_post _ _ _ _ Hm Ht Hne Hlen).
    unfold try_except. rewrite (write_sequence_run _ _ _ Hok H0), H1.
    unfold after_failed_write, logged, overstatement. simpl.
    rewrite counter_value_counted, messages_of_counted, stored_messages_counted.
    repeat split. lia.
  - intros H1 H2.
    exists (logged ("Error processing request: " +:+ exn_msg e)
              (after_failed_notify E w (str_strip t))).
    rewrite (handler_valid_post _ _ _ _ Hm Ht Hne Hlen).
    unfold try_except. rewrite (write_sequence_run _ _ _ Hok H0), H1, H2.
    unfold after_failed_notify, logged, overstatement. simpl.
    rewrite counter_value_stored, counter_value_counted.
    repeat split.
    + unfold stored. apply lookup_insert_eq.
    + intros Hfresh. rewrite stored_messages_stored.
      * rewrite stored_messages_counted. lia.
      * unfold counted. rewrite lookup_insert_ne by discriminate. exact Hfresh.
Qed.


Lemma handler_method_raises E event w e :
  method_field event = Raise e -> handler E event w = (Raise e, w).
Proof.
  intros Hm. unfold handler, bind at 1. rewrite request_method_spec, Hm.
  reflexivity.
Qed.

Lemma handler_preflight E event w :
  method_field event = Ok (Some (PStr "OPTIONS")) ->
  handler E event w = (Ok (mkResponse 200 json_headers (PStr "")), w).
Proof.
  intros Hm. unfold handler, bind at 1. rewrite request_method_spec, Hm.
  reflexivity.
Qed.

Lemma handler_other_method E event w mo :
  method_field event = Ok mo ->
  mo <> Some (PStr "OPTIONS") ->
  mo <> Some (PStr "POST") ->
  handler E event w = (Ok (error_response 405 "Method not allowed"), w).
Proof.
  intros Hm Hopt Hpost.
  assert (Ho : eq_str (default PNone mo) "OPTIONS" = false).
  { destruct mo as [[]|]; try reflexivity. simpl.
    destruct (String.eqb_spec s "OPTIONS"); congruence. }
  assert (Hp : eq_str (default (PStr "") mo) "POST" = false).
  { destruct mo as [[]|]; try reflexivity. simpl.
    destruct (String.eqb_spec s "POST"); congruence. }
  unfold handler, bind at 1. rewrite request_method_spec, Hm.
  cbv beta iota. rewrite Ho.
  unfold bind at 1. rewrite request_method_spec, Hm.
  cbv beta iota. rewrite Hp. reflexivity.
Qed.

(** C6. A request whose method is OPTIONS is answered by 200 with an empty
    body, and a request whose method is neither OPTIONS nor POST, or that
    carries no method at all, by 405 [{error: "Method not allowed"}]; in
    both cases the world is left as it was. *)
Theorem preflight_and_other_methods E event w mo :
  method_field event = Ok mo ->
  (mo = Some (PStr "OPTIONS") ->
     handler E event w = (Ok (mkResponse 200 json_headers (PStr "")), w))
  /\ (mo <> Some (PStr "OPTIONS") -> mo <> Some (PStr "POST") ->
        handler E event w = (Ok (error_response 405 "Method not allowed"), w)).
Proof.
  intros Hm. split.
  - intros ->. apply handler_preflight, Hm.
  - intros Hopt Hpost. eapply handler_other_method; eassumption.
Qed.

(** C10. A POST whose body parses as JSON that is not an object, or as an
    object whose [text] is not a string, makes the handler raise an
    [AttributeError] that nothing catches: no response is returned, and the
    world is left as it was. *)
Theorem non_object_body_attribute_error E event w j :
  is_method event "POST" ->
  body_parses_to event j ->
  (forall o, j <> PDict o)
  \/ (exists o v, j = PDict o /\ assoc "text" o = Some v /\ forall s, v <> PStr s) ->
  exists e,
    handler E event w = (Raise e, w)
    /\ exn_cls e = AttributeError
    /\ is_JSONDecodeError e || is_ValueError e = false.
Proof.
  intros Hm Hp Hshape. rewrite (handler_post _ _ _ Hm).
  rewrite (parse_body_parses _ _ _ Hp).
  destruct Hshape as [Hnot | (o & v & -> & Hv & Hns)].
  - exists (no_attribute j "get").
    destruct j; try (repeat split; reflexivity). exfalso. eapply Hnot. reflexivity.
  - exists (no_attribute v "strip"). simpl. rewrite Hv. simpl.
    destruct v; try (repeat split; reflexivity). exfalso. eapply Hns. reflexivity.
Qed.

(** *** Every run of the ingest handler *)

Lemma parse_body_pure event w : (parse_body event w).2 = w.
Proof.
  unfold parse_body, bind, lift, ret.
  destruct (get event "body" (PStr "{}")) as [raw|]; [|reflexivity].
  destruct (get event "isBase64Encoded" (PBool false)) as [b|]; [|reflexivity].
  destruct (truthy b).
  - destruct (b64decode_decode raw) as [t|]; [|reflexivity].
    destruct (json_loads (PStr t)) as [j|]; [|reflexivity].
    destruct (get j "text" (PStr "")); reflexivity.
  - destruct (json_loads raw) as [j|]; [|reflexivity].
    destruct (get j "text" (PStr "")); reflexivity.
Qed.

Lemma write_sequence_first_fails E w text ts id sk e :
  fault_at E (length (calls w)) = Some e ->
  write_sequence E text ts id sk w = (Raise e, record_call (increment_call E) w).
Proof.
  intros Hf. unfold write_sequence, bind.
  change ("METADATA", "METADATA") with METADATA.
  rewrite (update_item_fault _ _ _ Hf). reflexivity.
Qed.

Lemma write_sequence_bad_counter E w text ts id sk s :
  fault_at E (length (calls w)) = None ->
  message_count (table w) = Some (AttrS s) ->
  write_sequence E text ts id sk w
  = (Raise validation_exception, record_call (increment_call E) w).
Proof.
  intros Hf Hs. unfold write_sequence, bind at 1, update_item, service.
  rewrite Hf. unfold message_count, METADATA in Hs. simpl.
  destruct (table w !! ("METADATA", "METADATA")) as [it|] eqn:Hit;
    [|discriminate Hs].
  simpl in *. rewrite Hs. reflexivity.
Qed.

Lemma counter_ok_cases t :
  counter_ok t \/ exists s, message_count t = Some (AttrS s).
Proof.
  unfold counter_ok. destruct (message_count t) as [[s|n]|]; eauto;
    left; intros s; discriminate.
Qed.

Lemma method_cases (mo : option pyval) :
  mo = Some (PStr "OPTIONS") \/ mo = Some (PStr "POST")
  \/ (mo <> Some (PStr "OPTIONS") /\ mo <> Some (PStr "POST")).
Proof.
  destruct mo as [[| | | | |s| |]|];
    try (right; right; split; discriminate).
  destruct (String.eqb_spec s "OPTIONS") as [->|Ho]; [left; reflexivity|].
  destruct (String.eqb_spec s "POST") as [->|Hp]; [right; left; reflexivity|].
  right; right; split; congruence.
Qed.

Lemma handler_outcome E event w :
  outcome E event w (handler E event w).1 (handler E event w).2.
Proof.
  destruct (method_field event) as [mo|e] eqn:Hm.
  2:{ rewrite (handler_method_raises _ _ _ _ Hm). simpl.
      apply untouched. intros resp Hr. discriminate Hr. }
  destruct (method_cases mo) as [-> | [-> | [Hopt Hpost]]].
  { rewrite (handler_preflight _ _ _ Hm).
    simpl. apply untouched. intros resp [= <-]. right. right. split; [reflexivity|].
    unfold is_method. rewrite Hm. discriminate. }
  2:{ rewrite (handler_other_method _ _ _ _ Hm Hopt Hpost).
      simpl. apply untouched. intros resp [= <-]. left. reflexivity. }
  rewrite (handler_post _ _ _ Hm).
  pose proof (parse_body_pure event w) as Hpure.
  destruct (parse_body event w) as [[text|e] w0]; simpl in Hpure; subst w0.
  2:{ destruct (is_JSONDecodeError e || is_ValueError e); simpl; apply untouched.
      - intros resp [= <-]. right. left. reflexivity.
      - intros resp Hr. discriminate Hr. }
  destruct (String.eqb text "").
  { simpl. apply untouched. intros resp [= <-]. right. left. reflexivity. }
  destruct (500 <? String.length text)%nat.
  { simpl. apply untouched. intros resp [= <-]. right. left. reflexivity. }
  unfold try_except.
  destruct (fault_at E (length (calls w))) as [e|] eqn:H0.
  { rewrite (write_sequence_first_fails _ _ _ _ _ _ _ H0). simpl.
    apply increment_failed. }
  destruct (counter_ok_cases (table w)) as [Hok|[s Hs]].
  2:{ rewrite (write_sequence_bad_counter _ _ _ _ _ _ _ H0 Hs). simpl.
      apply (increment_failed _ _ _ validation_exception). }
  rewrite (write_sequence_run _ _ _ Hok H0).
  destruct (fault_at E (length (calls w) + 1)) as [e|].
  { simpl. apply write_failed, Hok. }
  destruct (fault_at E (length (calls w) + 2)) as [e|].
  { simpl. apply notify_failed, Hok. }
  simpl. apply accepted; assumption.
Qed.

Lemma counter_ok_counted t : counter_ok (counted t).
Proof. intros s. rewrite message_count_counted. discriminate. Qed.

Lemma counter_ok_stored t sk text ts :
  counter_ok t -> counter_ok (stored t sk text ts).
Proof. intros Hok s. rewrite message_count_stored. apply Hok. Qed.

Lemma messages_ok_counted t : messages_ok t -> messages_ok (counted t).
Proof.
  intros Hok sk it a n Hl. unfold counted in Hl.
  rewrite lookup_insert_ne in Hl by discriminate. eapply Hok, Hl.
Qed.

Lemma messages_ok_stored t sk text ts :
  messages_ok t -> messages_ok (stored t sk text ts).
Proof.
  intros Hok sk' it a n Hl Ha. unfold stored in Hl.
  destruct (decide (sk = sk')) as [->|Hne].
  - rewrite lookup_insert_eq in Hl. injection Hl as <-. unfold message_record.
    destruct Ha as [-> | ->].
    + rewrite lookup_insert_eq. discriminate.
    + rewrite lookup_insert_ne by discriminate. rewrite lookup_insert_eq.
      discriminate.
  - rewrite lookup_insert_ne in Hl by congruence. eapply Hok; eauto.
Qed.

End Ingest.

(** ** Facts about the snapshot builder *)
Section Snapshot.
Import Py Aws Spec SnapshotWriter.
Context `{PyLib}.

Lemma project_lookup_in names (it : gmap string attr) k :
  k ∈ names -> project names it !! k = it !! k.
Proof.
  intros Hin. unfold project. rewrite map_lookup_filter.
  destruct (it !! k) as [a|]; [|reflexivity]. simpl.
  rewrite option_guard_True by exact Hin. reflexivity.
Qed.

Lemma full_item_lookup_SK k (it : gmap string attr) :
  full_item k it !! "SK" = Some (AttrS k.2).
Proof.
  unfold full_item. rewrite lookup_insert_ne by discriminate.
  apply lookup_insert_eq.
Qed.

Lemma full_item_lookup_other k (it : gmap string attr) a :
  a <> "PK" -> a <> "SK" -> full_item k it !! a = it !! a.
Proof.
  intros Hpk Hsk. unfold full_item.
  rewrite lookup_insert_ne by congruence.
  rewrite lookup_insert_ne by congruence. reflexivity.
Qed.

(** The first component of a split is what precedes the first separator. *)
Lemma str_split_head c s :
  exists rest, str_split c s = before_first c s :: rest.
Proof.
  induction s as [|c' s IH]; simpl.
  - eexists; reflexivity.
  - destruct (Ascii.eqb c' c).
    + eexists; reflexivity.
    + destruct IH as [rest ->]. eexists; reflexivity.
Qed.

(** The second component is what lies between the first separator and the
    next one. *)
Lemma str_split_second c s :
  str_contains c s = true ->
  str_split c s !! 1%nat = Some (before_first c (after_first c s)).
Proof.
  induction s as [|c' s IH]; simpl; [discriminate|].
  destruct (Ascii.eqb c' c); simpl.
  - intros _. destruct (str_split_head c s) as [rest ->]. reflexivity.
  - intros Hc. destruct (str_split_head c s) as [rest Hrest].
    rewrite Hrest in *. simpl in *. exact (IH Hc).
Qed.

Lemma message_id_of_str sk :
  message_id_of (PStr sk) = Ok (PStr (published_id sk)).
Proof.
  unfold message_id_of, published_id. simpl.
  destruct (str_contains "#" sk) eqn:Hc; [|reflexivity].
  unfold index. rewrite (str_split_second _ _ Hc). reflexivity.
Qed.

Lemma item_get_string_field (it : gmap string attr) a :
  (forall n, it !! a <> Some (AttrN n)) ->
  default (PStr "") (py_of_attr <$> it !! a) = PStr (string_field it a).
Proof.
  intros Hok. unfold string_field.
  destruct (it !! a) as [[s|n]|]; try reflexivity.
  exfalso. apply (Hok n). reflexivity.
Qed.

Lemma message_of_item_row r :
  row_ok r -> message_of_item (returned_item r) = Ok (entry_of r).
Proof.
  intros Hok. unfold message_of_item, returned_item, item_get.
  rewrite !project_lookup_in by (repeat constructor).
  rewrite full_item_lookup_SK.
  rewrite !full_item_lookup_other by discriminate.
  simpl. rewrite message_id_of_str. unfold entry_of.
  rewrite !item_get_string_field by (intros n; apply Hok; auto).
  reflexivity.
Qed.

Lemma collect_messages_rows acc rows :
  Forall row_ok rows ->
  collect_messages acc (returned_item <$> rows) = Ok (acc ++ (entry_of <$> rows))%list.
Proof.
  intros Hok. revert acc.
  induction Hok as [|r rows Hr _ IH]; intros acc; simpl.
  - rewrite app_nil_r. reflexivity.
  - rewrite (message_of_item_row _ Hr). rewrite IH.
    rewrite <- app_assoc. reflexivity.
Qed.

Lemma newest_rows_ok n t : messages_ok t -> Forall row_ok (newest n t).
Proof.
  intros Hok. apply Forall_forall. intros r Hr a k Ha.
  destruct (newest_spec n t) as (_ & _ & Hin & _).
  eapply Hok; eauto.
Qed.

Lemma serializable_entries rows :
  forallb serializable (entry_of <$> rows) = true.
Proof. induction rows as [|r rows IH]; simpl; [reflexivity|exact IH]. Qed.

Lemma get_item_count E w :
  fault_at E (length (calls w)) = None ->
  exists r,
    get_item E (TABLE_NAME E) METADATA ["messageCount"] w
    = (Ok r, record_call (read_call E) w)
    /\ item_get (default ∅ (Item r)) "messageCount" (PInt 0) = read_count (table w).
Proof.
  intros Hf. unfold get_item, service. rewrite Hf. eexists. split; [reflexivity|].
  unfold item_get, read_count, message_count. simpl.
  destruct (table w !! METADATA) as [it|]; simpl.
  - rewrite project_lookup_in by (repeat constructor).
    rewrite full_item_lookup_other by discriminate.
    destruct (it !! "messageCount"); reflexivity.
  - rewrite lookup_empty. reflexivity.
Qed.

Lemma read_count_ok t :
  counter_ok t ->
  int (read_count t) = Ok (counter_value t)
  /\ str (read_count t) = pretty (counter_value t).
Proof.
  intros Hok. unfold read_count, counter_value, counter_ok in *.
  destruct (message_count t) as [[s|n]|]; simpl; auto.
  exfalso. apply (Hok s). reflexivity.
Qed.

Lemma json_dumps_document i t :
  json_dumps i (snapshot_document t) = Ok (dumps_text i (snapshot_document t)).
Proof.
  unfold json_dumps, snapshot_document. simpl.
  rewrite serializable_entries. reflexivity.
Qed.

(** The body of the [try] on a well-typed table, by which call fails, if
    any. *)
Lemma build_snapshot_run E w :
  counter_ok (table w) ->
  messages_ok (table w) ->
  build_snapshot E w =
    match fault_at E (length (calls w)) with
    | Some e => (Raise e, record_call (read_call E) w)
    | None =>
        match fault_at E (length (calls w) + 1) with
        | Some e =>
            (Raise e, record_call (scan_call E) (record_call (read_call E) w))
        | None =>
            match fault_at E (length (calls w) + 2) with
            | Some e =>
                (Raise e,
                 record_call (publish_call E (table w))
                   (record_call (scan_call E) (record_call (read_call E) w)))
            | None => (Ok (snapshot_ack (table w)), published E w)
            end
        end
    end.
Proof.
  intros Hc Hm. unfold build_snapshot, bind at 1.
  change ("METADATA", "METADATA") with METADATA.
  destruct (fault_at E (length (calls w))) as [e|] eqn:H0.
  { unfold get_item, service. rewrite H0. reflexivity. }
  destruct (get_item_count E w H0) as (r & -> & Hr). rewrite Hr.
  set (w1 := record_call (read_call E) w).
  assert (Hlen1 : length (calls w1) = (length (calls w) + 1)%nat).
  { subst w1. simpl. rewrite length_app. reflexivity. }
  unfold bind at 1, query, service.
  destruct (fault_at E (length (calls w1))) as [e|] eqn:H1;
    rewrite Hlen1 in H1; rewrite H1.
  { reflexivity. }
  fold (scan_call E).
  set (w2 := record_call (scan_call E) w1).
  assert (Hlen2 : length (calls w2) = (length (calls w) + 2)%nat).
  { unfold w2, w1. simpl. rewrite !length_app. simpl. lia. }
  change (default [] (Items _)) with (returned_item <$> newest 5 (table w)).
  unfold bind at 1, lift at 1.
  rewrite (collect_messages_rows [] _ (newest_rows_ok 5 _ Hm)). simpl app.
  destruct (read_count_ok _ Hc) as [Hint Hstr].
  unfold bind at 1, lift at 1. rewrite Hint.
  fold (snapshot_document (table w)).
  unfold bind at 1, lift at 1. rewrite json_dumps_document.
  fold (state_object (table w)).
  unfold bind at 1, put_object, service.
  fold (publish_call E (table w)).
  destruct (fault_at E (length (calls w2))) as [e|] eqn:H2;
    rewrite Hlen2 in H2; rewrite H2.
  { reflexivity. }
  unfold bind, print, lift, ret. rewrite ?Hint, ?Hstr.
  unfold json_dumps. simpl.
  unfold published, snapshot_ack, state_location, wrote_line. simpl.
  rewrite length_fmap. rewrite <- !app_assoc. reflexivity.
Qed.

(** *** Every run of the snapshot builder *)

Lemma keeps_ret {A} (a : A) : keeps_store (ret a).
Proof. intros w. split; reflexivity. Qed.

Lemma keeps_raise {A} e : keeps_store (@raise A e).
Proof. intros w. split; reflexivity. Qed.

Lemma keeps_lift {A} (r : result A) : keeps_store (lift r).
Proof. intros w. split; reflexivity. Qed.

Lemma keeps_print line : keeps_store (print line).
Proof. intros w. split; reflexivity. Qed.

Lemma keeps_bind {A B} (m : M A) (k : A -> M B) :
  keeps_store m -> (forall a, keeps_store (k a)) -> keeps_store (bind m k).
Proof.
  intros Hm Hk w. unfold bind. specialize (Hm w).
  destruct (m w) as [[a|e] w1]; simpl in *; [|exact Hm].
  destruct (Hk a w1) as [Ht Hb]. destruct Hm as [Ht1 Hb1].
  split; congruence.
Qed.

Lemma keeps_try_except {A} (m : M A) (h : exn -> M A) :
  keeps_store m -> (forall e, keeps_store (h e)) -> keeps_store (try_except m h).
Proof.
  intros Hm Hh w. unfold try_except. specialize (Hm w).
  destruct (m w) as [[a|e] w1]; simpl in *; [exact Hm|].
  destruct (Hh e w1) as [Ht Hb]. destruct Hm as [Ht1 Hb1].
  split; congruence.
Qed.

Lemma keeps_service {A} E c (op : M A) : keeps_store op -> keeps_store (service E c op).
Proof.
  intros Hop w. unfold service.
  destruct (fault_at E (length (calls w))); [split; reflexivity|].
  apply (Hop (record_call c w)).
Qed.

Lemma keeps_get_item E tn k proj : keeps_store (get_item E tn k proj).
Proof. apply keeps_service. intros w. split; reflexivity. Qed.

Lemma keeps_query E tn pk f n proj : keeps_store (query E tn pk f n proj).
Proof. apply keeps_service. intros w. split; reflexivity. Qed.

Lemma keeps_put_object E b k o : keeps_store (put_object E b k o).
Proof. apply keeps_service. intros w. split; reflexivity. Qed.

Create HintDb store.
#[local] Hint Resolve keeps_ret keeps_raise keeps_lift keeps_print
  keeps_get_item keeps_query keeps_put_object : store.

Lemma keeps_handler E event : keeps_store (handler E event).
Proof.
  unfold handler, build_snapshot.
  repeat first [ apply keeps_bind; [|intros ?]
               | apply keeps_try_except; [|intros ?]
               | solve [auto with store] ].
Qed.

(** The handler around the body of its [try]. *)
Lemma handler_run E event w :
  serializable event = true ->
  handler E event w =
    match build_snapshot E (logged ("Received event: " +:+ dumps_text None event) w) with
    | (Ok a, w') => (Ok a, w')
    | (Raise e, w') =>
        (Raise e, logged ("Error generating snapshot: " +:+ exn_msg e) w')
    end.
Proof.
  intros Hs. unfold handler, bind, lift, json_dumps, try_except. rewrite Hs.
  simpl. fold (logged ("Received event: " +:+ dumps_text None event) w).
  destruct (build_snapshot E _) as [[a|e] w']; reflexivity.
Qed.

(** Whatever the body of the [try] returns is the acknowledgment of a
    message count. *)
Lemma build_snapshot_returns E w a w' :
  build_snapshot E w = (Ok a, w') ->
  exists n, a = mkAck 200
                  (dumps_text None
                     (PDict [("success", PBool true); ("messageCount", PInt n)]))
            /\ int (read_count (table w)) = Ok n.
Proof.
  unfold build_snapshot, bind at 1.
  change ("METADATA", "METADATA") with METADATA.
  destruct (fault_at E (length (calls w))) as [e|] eqn:H0.
  { unfold get_item, service. rewrite H0. discriminate. }
  destruct (get_item_count E w H0) as (r & -> & ->).
  unfold bind, query, put_object, service, lift, print, ret, json_dumps.
  repeat case_match; try discriminate; simplify_eq/=.
  intros [= <- <-]. eexists. split; reflexivity.
Qed.

Lemma no_fault_weaken E w k k' : no_fault E w k -> (k' <= k)%nat -> no_fault E w k'.
Proof. intros Hf Hle i Hi. apply Hf. lia. Qed.

(** A run in which the three calls succeed on a well-typed table. *)
Lemma handler_publishes E event w :
  serializable event = true ->
  counter_ok (table w) ->
  messages_ok (table w) ->
  no_fault E w 3 ->
  handler E event w
  = (Ok (snapshot_ack (table w)),
     published E (logged ("Received event: " +:+ dumps_text None event) w)).
Proof.
  intros Hs Hc Hm Hf. rewrite (handler_run _ _ _ Hs).
  rewrite build_snapshot_run by assumption. simpl calls.
  rewrite <- (Nat.add_0_r (length (calls w))) at 1.
  rewrite !Hf by lia. reflexivity.
Qed.

(** C3. On a well-typed table, when no call fails, one invocation publishes
    a single object: the document [{messageCount, messages}] printed with
    [indent=2], of content type [application/json] and cache control
    [no-cache, no-store, must-revalidate].  [messageCount] is the value of
    the counter record, 0 when it is absent; [messages] has one entry for
    each of the at most 5 records of the MESSAGE partition with the largest
    sort keys, in descending order of sort key. *)
Theorem snapshot_publishes_newest_five E event w :
  serializable event = true ->
  counter_ok (table w) ->
  messages_ok (table w) ->
  no_fault E w 3 ->
  let t := table w in
  let top := newest 5 t in
  let document :=
    PDict [("messageCount", PInt (counter_value t));
           ("messages", PList (entry_of <$> top))] in
  let object :=
    mkObject (dumps_text (Some 2%nat) document)
      "application/json" "no-cache, no-store, must-revalidate" in
  exists ack w',
    handler E event w = (Ok ack, w')
    /\ bucket w' = <[(BUCKET_NAME E, STATE_KEY) := object]> (bucket w)
    /\ calls w' = (calls w ++ [read_call E; scan_call E;
                               PutObject (BUCKET_NAME E) STATE_KEY object])%list
    /\ (message_count t = None -> counter_value t = 0)
    /\ (forall n, message_count t = Some (AttrN n) -> counter_value t = n)
    /\ (length top <= 5)%nat
    /\ StronglySorted (fun x y => String.leb y.1 x.1 = true) top
    /\ (forall r, r ∈ top -> t !! ("MESSAGE", r.1) = Some r.2)
    /\ (forall sk it, t !! ("MESSAGE", sk) = Some it ->
          (sk, it) ∈ top
          \/ (length top = 5%nat /\ forall r, r ∈ top -> String.leb sk r.1 = true)).
Proof.
  intros Hs Hc Hm Hf t top document object.
  destruct (newest_spec 5 t) as (Hlen & Hsorted & Hin & Hmax).
  eexists. eexists. split; [apply handler_publishes; assumption|].
  repeat split; try assumption.
  - unfold counter_value. intros ->. reflexivity.
  - unfold counter_value. intros n ->. reflexivity.
Qed.

Lemma before_first_none c s : str_contains c s = false -> before_first c s = s.
Proof.
  induction s as [|c' s IH]; simpl; [reflexivity|].
  destruct (Ascii.eqb c' c); simpl; [discriminate|].
  intros Hc. rewrite (IH Hc). reflexivity.
Qed.

Lemma str_contains_occurrences c s :
  str_contains c s = true <-> (1 <= occurrences c s)%nat.
Proof.
  induction s as [|c' s IH]; simpl.
  - split; [discriminate|lia].
  - destruct (Ascii.eqb c' c); simpl; [split; [lia|reflexivity]|exact IH].
Qed.

Lemma occurrences_after_first c s :
  occurrences c (after_first c s) = (occurrences c s - 1)%nat.
Proof.
  induction s as [|c' s IH]; simpl; [reflexivity|].
  destruct (Ascii.eqb c' c); simpl; [lia|exact IH].
Qed.

Lemma occurrences_before_first c s : occurrences c (before_first c s) = 0%nat.
Proof.
  induction s as [|c' s IH]; simpl; [reflexivity|].
  destruct (Ascii.eqb c' c) eqn:Hc; simpl; [reflexivity|].
  rewrite Hc. exact IH.
Qed.

(** C4, as amended.  The published id is the second component of the sort
    key split at [#]: what lies between the first [#] and the next one, or
    the whole key when it has no [#].  With exactly one [#] that is all that
    follows it; with two or more it is only the part up to the second [#],
    never all that follows the first.  Every record the range scan returns
    is published under this id. *)
Theorem published_id_is_second_component :
  (forall sk, str_contains "#" sk = false ->
     message_id_of (PStr sk) = Ok (PStr sk))
  /\ (forall sk, str_contains "#" sk = true ->
        message_id_of (PStr sk)
        = Ok (PStr (before_first "#" (after_first "#" sk))))
  /\ (forall sk, occurrences "#" sk = 1%nat ->
        message_id_of (PStr sk) = Ok (PStr (after_first "#" sk)))
  /\ (forall sk, (2 <= occurrences "#" sk)%nat ->
        message_id_of (PStr sk) <> Ok (PStr (after_first "#" sk)))
  /\ (forall r, row_ok r ->
        message_of_item (returned_item r)
        = Ok (PDict [("id", PStr (published_id r.1));
                     ("text", PStr (string_field r.2 "text"));
                     ("createdAt", PStr (string_field r.2 "createdAt"))])).
Proof.
  repeat split.
  - intros sk Hc. rewrite message_id_of_str. unfold published_id.
    rewrite Hc. reflexivity.
  - intros sk Hc. rewrite message_id_of_str. unfold published_id.
    rewrite Hc. reflexivity.
  - intros sk Hone. rewrite message_id_of_str. unfold published_id.
    assert (Hc : str_contains "#" sk = true)
      by (apply str_contains_occurrences; lia).
    rewrite Hc. rewrite before_first_none; [reflexivity|].
    destruct (str_contains "#" (after_first "#" sk)) eqn:Hc'; [|reflexivity].
    apply str_contains_occurrences in Hc'.
    rewrite occurrences_after_first in Hc'. lia.
  - intros sk Htwo. rewrite message_id_of_str. unfold published_id.
    assert (Hc : str_contains "#" sk = true)
      by (apply str_contains_occurrences; lia).
    rewrite Hc. intros [= Heq].
    pose proof (occurrences_before_first "#" (after_first "#" sk)) as Hz.
    rewrite Heq, occurrences_after_first in Hz. lia.
  - intros r Hr. apply message_of_item_row, Hr.
Qed.

(** C7. The snapshot builder never writes to the store: whatever the
    trigger payload and whatever fails, a run leaves the table (and the bus)
    as it was.  What it publishes is a function of the table alone: two runs
    on worlds with the same table, whatever their payloads, their logs and
    their buckets, publish the same object; in particular a second run right
    after a first one overwrites the published object with an identical
    one and leaves bucket and table unchanged. *)
Theorem snapshot_idempotent E event1 event2 w :
  (table (handler E event1 w).2 = table w /\ bus (handler E event1 w).2 = bus w)
  /\ (forall E' w',
        serializable event1 = true -> serializable event2 = true ->
        table w' = table w ->
        counter_ok (table w) -> messages_ok (table w) ->
        no_fault E w 3 -> no_fault E' w' 3 ->
        exists o,
          bucket (handler E event1 w).2 !! state_location E = Some o
          /\ bucket (handler E' event2 w').2 !! state_location E' = Some o)
  /\ (serializable event1 = true -> serializable event2 = true ->
      counter_ok (table w) -> messages_ok (table w) ->
      no_fault E w 6 ->
      let w1 := (handler E event1 w).2 in
      let w2 := (handler E event2 w1).2 in
      (handler E event1 w).1 = Ok (snapshot_ack (table w))
      /\ (handler E event2 w1).1 = Ok (snapshot_ack (table w))
      /\ bucket w1 !! state_location E = Some (state_object (table w))
      /\ bucket w2 = bucket w1
      /\ table w2 = table w).
Proof.
  split; [apply keeps_handler|]. split.
  - intros E' w' Hs1 Hs2 Ht Hc Hm Hf Hf'. exists (state_object (table w)).
    rewrite handler_publishes by assumption.
    rewrite handler_publishes by (try rewrite Ht; assumption).
    simpl. rewrite Ht, !lookup_insert_eq. split; reflexivity.
  - intros Hs1 Hs2 Hc Hm Hf w1 w2.
    assert (Hf1 : no_fault E w 3) by (eapply no_fault_weaken; [eassumption|lia]).
    assert (Hw1 : w1 = published E
                         (logged ("Received event: " +:+ dumps_text None event1) w)).
    { unfold w1. rewrite handler_publishes by assumption. reflexivity. }
    assert (Hf2 : no_fault E w1 3).
    { intros i Hi. rewrite Hw1. simpl. rewrite length_app. simpl.
      rewrite <- Nat.add_assoc. apply Hf. lia. }
    assert (Ht1 : table w1 = table w) by (rewrite Hw1; reflexivity).
    assert (Hw2 : handler E event2 w1
                  = (Ok (snapshot_ack (table w1)),
                     published E
                       (logged ("Received event: " +:+ dumps_text None event2) w1))).
    { apply handler_publishes; try assumption; rewrite Ht1; assumption. }
    split; [rewrite handler_publishes by assumption; reflexivity|].
    split; [rewrite Hw2, Ht1; reflexivity|].
    split; [rewrite Hw1; simpl; apply lookup_insert_eq|].
    unfold w2. rewrite Hw2. simpl. rewrite Ht1. split; [|reflexivity].
    rewrite Hw1. simpl. apply insert_insert_eq.
Qed.

(** C9. The snapshot builder catches no failure.  Whatever exception the
    body of its [try] raises, it logs it and raises the same exception to
    its trigger; this is what happens when the read of the counter, the
    query or the write of the object fails.  It has no error-result return
    path: whatever it returns is the acknowledgment 200 carrying a message
    count, and on success that count is the counter's value. *)
Theorem snapshot_failures_propagate E event w :
  serializable event = true ->
  let w0 := logged ("Received event: " +:+ dumps_text None event) w in
  (forall e w',
     build_snapshot E w0 = (Raise e, w') ->
     handler E event w
     = (Raise e, logged ("Error generating snapshot: " +:+ exn_msg e) w'))
  /\ (forall i e,
        (i < 3)%nat -> first_fault E w i e ->
        counter_ok (table w) -> messages_ok (table w) ->
        (handler E event w).1 = Raise e
        /\ last (log (handler E event w).2)
           = Some ("Error generating snapshot: " +:+ exn_msg e)
        /\ length (calls (handler E event w).2) = (length (calls w) + S i)%nat
        /\ (i < 2 -> bucket (handler E event w).2 = bucket w)%nat)
  /\ (forall a w',
        handler E event w = (Ok a, w') ->
        exists n, a = mkAck 200
                        (dumps_text None
                           (PDict [("success", PBool true);
                                   ("messageCount", PInt n)])))
  /\ (counter_ok (table w) -> messages_ok (table w) -> no_fault E w 3 ->
      (handler E event w).1
      = Ok (mkAck 200
              (dumps_text None
                 (PDict [("success", PBool true);
                         ("messageCount", PInt (counter_value (table w)))])))).
Proof.
  intros Hs w0. split; [|split; [|split]].
  - intros e w' Hb. rewrite (handler_run _ _ _ Hs). fold w0. rewrite Hb.
    reflexivity.
  - intros i e Hi [Hfault Hbefore] Hc Hm.
    rewrite (handler_run _ _ _ Hs), build_snapshot_run by assumption.
    simpl calls.
    destruct i as [|[|[|i]]]; try lia.
    + rewrite Nat.add_0_r in Hfault. rewrite Hfault. simpl.
      rewrite last_snoc, length_app. repeat split; reflexivity.
    + rewrite (no_fault_0 _ _ _ Hbefore), Hfault. simpl.
      rewrite last_snoc, !length_app. simpl. repeat split; try reflexivity. lia.
    + rewrite (no_fault_0 _ _ _ Hbefore), (Hbefore 1%nat) by lia.
      rewrite Hfault. simpl.
      rewrite last_snoc, !length_app. simpl. repeat split; try reflexivity; lia.
  - intros a w'. rewrite (handler_run _ _ _ Hs). fold w0.
    destruct (build_snapshot E w0) as [[a0|e] w1] eqn:Hb; [|discriminate].
    intros [= <- <-]. destruct (build_snapshot_returns _ _ _ _ Hb) as (n & -> & _).
    exists n. reflexivity.
  - intros Hc Hm Hf. rewrite handler_publishes by assumption. reflexivity.
Qed.

End Snapshot.

(** ** The counter across both handlers *)
Section System.
Import Py Aws Spec.
Context `{PyLib}.

(** What a run of the ingest handler does to the table. *)
Lemma outcome_table E event w r w' :
  outcome E event w r w' ->
  table w' = table w
  \/ (counter_ok (table w) /\ table w' = counted (table w))
  \/ (counter_ok (table w)
      /\ exists sk text ts, table w' = stored (counted (table w)) sk text ts).
Proof.
  intros [r0 _ | e | e text Hok | e text Hok | text Hok _]; simpl; eauto 8.
Qed.

Lemma ingest_keeps_well_typed E event w :
  counter_ok (table w) /\ messages_ok (table w) ->
  counter_ok (table (ApiHandler.handler E event w).2)
  /\ messages_ok (table (ApiHandler.handler E event w).2).
Proof.
  intros [Hc Hm].
  destruct (outcome_table _ _ _ _ _ (handler_outcome E event w))
    as [-> | [[_ ->] | [_ (sk & text & ts & ->)]]].
  - split; assumption.
  - split; [apply counter_ok_counted|apply messages_ok_counted, Hm].
  - split.
    + apply counter_ok_stored, counter_ok_counted.
    + apply messages_ok_stored, messages_ok_counted, Hm.
Qed.

Lemma ingest_counter_step E event w :
  counter_value (table (ApiHandler.handler E event w).2) = counter_value (table w)
  \/ counter_value (table (ApiHandler.handler E event w).2)
     = counter_value (table w) + 1.
Proof.
  destruct (outcome_table _ _ _ _ _ (handler_outcome E event w))
    as [-> | [[_ ->] | [_ (sk & text & ts & ->)]]].
  - left. reflexivity.
  - right. apply counter_value_counted.
  - right. rewrite counter_value_stored. apply counter_value_counted.
Qed.

(** Every reachable table is well typed and its counter is not negative. *)
Lemma reachable_invariant w :
  reachable w ->
  counter_ok (table w) /\ messages_ok (table w) /\ 0 <= counter_value (table w).
Proof.
  induction 1 as [w Hempty | E event w _ (Hc & Hm & Hpos)
                  | E event w _ (Hc & Hm & Hpos)].
  - rewrite Hempty. repeat split.
    + intros s. unfold message_count. rewrite lookup_empty. discriminate.
    + intros sk it a n Hl. rewrite lookup_empty in Hl. discriminate.
    + unfold counter_value, message_count. rewrite lookup_empty. simpl. lia.
  - destruct (ingest_keeps_well_typed E event w (conj Hc Hm)) as [Hc' Hm'].
    repeat split; try assumption.
    destruct (ingest_counter_step E event w) as [-> | ->]; lia.
  - destruct (keeps_handler E event w) as [-> _]. repeat split; assumption.
Qed.

(** C8. The counter across all operations.  A run of the ingest handler
    leaves the counter as it was or adds exactly 1 to it; a request it
    rejects (400 or 405) leaves the whole table as it was; a POST it accepts
    (200) adds exactly 1, a missing counter counting as 0, so that the first
    increment yields 1.  A run of the snapshot builder leaves the table as it
    was: it only reads the counter.  Hence in every world the two handlers
    can reach from an empty table the counter is, where present, a number,
    and is not negative. *)
Theorem counter_invariant :
  (forall E event w,
     let r := (ApiHandler.handler E event w).1 in
     let w' := (ApiHandler.handler E event w).2 in
     (counter_value (table w') = counter_value (table w)
      \/ counter_value (table w') = counter_value (table w) + 1)
     /\ (forall resp, r = Ok resp ->
           ApiHandler.statusCode resp = 400 \/ ApiHandler.statusCode resp = 405 ->
           table w' = table w)
     /\ (forall resp, r = Ok resp ->
           is_method event "POST" -> ApiHandler.statusCode resp = 200 ->
           message_count (table w') = Some (AttrN (counter_value (table w) + 1))
           /\ counter_value (table w') = counter_value (table w) + 1
           /\ (message_count (table w) = None -> counter_value (table w') = 1)))
  /\ (forall E event w,
        table (SnapshotWriter.handler E event w).2 = table w)
  /\ (forall w,
        reachable w ->
        counter_ok (table w) /\ 0 <= counter_value (table w)).
Proof.
  split; [|split].
  - intros E event w r w'. split; [apply ingest_counter_step|].
    subst r w'. destruct (handler_outcome E event w)
      as [r0 Hr | e | e text Hok | e text Hok | text Hok Hpost]; simpl.
    + split; [reflexivity|].
      intros resp -> Hm H200. destruct (Hr resp eq_refl) as [H'|[H'|[_ H']]];
        [lia|lia|contradiction].
    + split; intros resp [= <-]; simpl; intros; lia.
    + split; intros resp [= <-]; simpl; intros; lia.
    + split; intros resp [= <-]; simpl; intros; lia.
    + split; [intros resp [= <-]; simpl; lia|].
      intros resp _ _ _.
      rewrite message_count_stored, message_count_counted.
      rewrite counter_value_stored, counter_value_counted.
      repeat split. intros Hnone. unfold counter_value. rewrite Hnone. reflexivity.
  - intros E event w. apply keeps_handler.
  - intros w Hr. destruct (reachable_invariant w Hr) as (Hc & _ & Hpos).
    split; assumption.
Qed.

End System.

(** ** Sample runs *)
Section Runs.
Import Py Aws Spec Sample.

Lemma hello_is_post : is_method hello "POST".
Proof. reflexivity. Defined.

Lemma hello_has_text : has_text hello "hello".
Proof.
  exists [("text", PStr "hello")]. split; [|reflexivity].
  exists (body_of (PStr "hello")). split; reflexivity.
Defined.

Lemma empty_counter_ok : counter_ok (table empty_world).
Proof. intros s. vm_compute. discriminate. Defined.

Lemma calm_no_fault w k : no_fault calm w k.
Proof. intros i Hi. reflexivity. Defined.

Lemma accepted_post_three_effects_witness :
  exists w',
    ApiHandler.handler calm hello empty_world
    = (Ok (success_response (uuid4 calm) (now_strftime calm)), w')
    /\ length (calls w') = 3%nat
    /\ counter_value (table w') = 1.
Proof.
  destruct (accepted_post_three_effects calm hello empty_world "hello")
    as (w' & Hrun & Hcalls & Hcount & _).
  - exact hello_is_post.
  - exact hello_has_text.
  - vm_compute. discriminate.
  - vm_compute. lia.
  - exact empty_counter_ok.
  - apply calm_no_fault.
  - exists w'. split; [exact Hrun|]. split.
    + rewrite Hcalls. reflexivity.
    + unfold counter_value. rewrite Hcount. reflexivity.
Defined.

Lemma failed_write_sequence_not_rolled_back_witness :
  (exists w',
     ApiHandler.handler (failing 1) hello empty_world
     = (Ok (error_response 500 "Internal server error"), w')
     /\ counter_value (table w') = 1
     /\ overstatement (table w') = 1)
  /\ (exists w',
        ApiHandler.handler (failing 2) hello empty_world
        = (Ok (error_response 500 "Internal server error"), w')
        /\ counter_value (table w') = 1
        /\ overstatement (table w') = 0).
Proof.
  split.
  - destruct (failed_write_sequence_not_rolled_back (failing 1) hello empty_world
                "hello" (mkExn ClientError "Throttled"))
      as [Hb _].
    + exact hello_is_post.
    + exact hello_has_text.
    + vm_compute. discriminate.
    + vm_compute. lia.
    + exact empty_counter_ok.
    + reflexivity.
    + destruct (Hb eq_refl) as (w' & Hrun & Hcount & _ & Hover & _).
      exists w'. split; [exact Hrun|]. split; [exact Hcount|exact Hover].
  - destruct (failed_write_sequence_not_rolled_back (failing 2) hello empty_world
                "hello" (mkExn ClientError "Throttled"))
      as [_ Hc].
    + exact hello_is_post.
    + exact hello_has_text.
    + vm_compute. discriminate.
    + vm_compute. lia.
    + exact empty_counter_ok.
    + reflexivity.
    + destruct (Hc eq_refl eq_refl) as (w' & Hrun & Hcount & _ & Hover & _).
      exists w'. split; [exact Hrun|]. split; [exact Hcount|].
      apply Hover. reflexivity.
Defined.

(** C2 as stated fails when it is the notification that fails: the
    increment and the message write have both taken effect, the handler
    returns 500, and the counter (1) is not overstated relative to the
    stored messages (1). *)
Lemma failed_notify_counter_not_overstated :
  let E := failing 2 in
  let run := ApiHandler.handler E hello empty_world in
  fault_at E 0 = None
  /\ fault_at E 1 = None
  /\ fault_at E 2 = Some (mkExn ClientError "Throttled")
  /\ run.1 = Ok (error_response 500 "Internal server error")
  /\ counter_value (table run.2) = 1
  /\ stored_messages (table run.2) = 1
  /\ overstatement (table run.2) <> overstatement (table empty_world) + 1.
Proof. vm_compute. repeat split; discriminate. Qed.

(** After seven posts the snapshot has the count 7 and the five newest
    messages, newest first. *)
Example seven_posts_five_published :
  (SnapshotWriter.handler calm PNone seven_messages).1
  = Ok (snapshot_ack (table seven_messages))
  /\ counter_value (table seven_messages) = 7
  /\ (fun r => r.1) <$> newest 5 (table seven_messages)
     = ["t7#g"; "t6#f"; "t5#e"; "t4#d"; "t3#c"]
  /\ published_id <$> ["t7#g"; "t6#f"; "t5#e"; "t4#d"; "t3#c"]
     = ["g"; "f"; "e"; "d"; "c"].
Proof. vm_compute. repeat split. Qed.



Lemma preflight_and_other_methods_witness :
  ApiHandler.handler calm (request "OPTIONS" []) empty_world
  = (Ok (ApiHandler.mkResponse 200 json_headers (PStr "")), empty_world)
  /\ ApiHandler.handler calm (request "GET" []) empty_world
     = (Ok (error_response 405 "Method not allowed"), empty_world)
  /\ ApiHandler.handler calm (PDict []) empty_world
     = (Ok (error_response 405 "Method not allowed"), empty_world).
Proof.
  split; [|split].
  - apply (preflight_and_other_methods calm (request "OPTIONS" []) empty_world
             (Some (PStr "OPTIONS"))); reflexivity.
  - apply (preflight_and_other_methods calm (request "GET" []) empty_world
             (Some (PStr "GET"))); [reflexivity|discriminate|discriminate].
  - apply (preflight_and_other_methods calm (PDict []) empty_world None);
      [reflexivity|discriminate|discriminate].
Defined.

Lemma non_object_body_attribute_error_witness :
  (exists e, ApiHandler.handler calm (post "[]") empty_world = (Raise e, empty_world)
             /\ exn_cls e = AttributeError)
  /\ (exists e, ApiHandler.handler calm (post (body_of (PInt 5))) empty_world
                = (Raise e, empty_world)
                /\ exn_cls e = AttributeError).
Proof.
  split.
  - destruct (non_object_body_attribute_error calm (post "[]") empty_world (PList []))
      as (e & Hrun & Hcls & _).
    + reflexivity.
    + exists "[]". split; reflexivity.
    + left. intros o. discriminate.
    + exists e. split; assumption.
  - destruct (non_object_body_attribute_error calm (post (body_of (PInt 5)))
                empty_world (PDict [("text", PInt 5)]))
      as (e & Hrun & Hcls & _).
    + reflexivity.
    + exists (body_of (PInt 5)). split; reflexivity.
    + right. exists [("text", PInt 5)], (PInt 5).
      split; [reflexivity|]. split; [reflexivity|]. intros s. discriminate.
    + exists e. split; assumption.
Defined.

Lemma one_message_reachable : reachable one_message.
Proof. apply reach_ingest, reach_empty. reflexivity. Defined.

Lemma one_message_counter_ok : counter_ok (table one_message).
Proof. apply reachable_invariant, one_message_reachable. Defined.

Lemma one_message_messages_ok : messages_ok (table one_message).
Proof. apply reachable_invariant, one_message_reachable. Defined.

Lemma snapshot_publishes_newest_five_witness :
  exists ack w',
    SnapshotWriter.handler calm PNone one_message = (Ok ack, w')
    /\ bucket w' !! ("messagewall-demo-dev", "state.json")
       = Some (mkObject
                 (dumps (Some 2%nat) 0
                    (PDict [("messageCount", PInt 1);
                            ("messages",
                             PList [PDict [("id", PStr (uuid4 calm));
                                           ("text", PStr "hello");
                                           ("createdAt", PStr (now_strftime calm))]])]))
                 "application/json" "no-cache, no-store, must-revalidate").
Proof.
  destruct (snapshot_publishes_newest_five calm PNone one_message)
    as (ack & w' & Hrun & Hbucket & _).
  - reflexivity.
  - exact one_message_counter_ok.
  - exact one_message_messages_ok.
  - apply calm_no_fault.
  - exists ack, w'. split; [exact Hrun|]. rewrite Hbucket.
    vm_compute. reflexivity.
Defined.

(** C4 as stated fails on a sort key with two separators: the id is the
    part between them, not all that follows the first. *)
Lemma two_separators_id_is_middle_part :
  SnapshotWriter.message_id_of (PStr "2024#id#x") = Ok (PStr "id")
  /\ after_first "#" "2024#id#x" = "id#x"
  /\ occurrences "#" "2024#id#x" = 2%nat
  /\ SnapshotWriter.message_id_of (PStr "2024#id#x")
     <> Ok (PStr (after_first "#" "2024#id#x")).
Proof. vm_compute. repeat split; discriminate. Qed.

Lemma published_id_is_second_component_witness :
  SnapshotWriter.message_id_of (PStr "nokey") = Ok (PStr "nokey")
  /\ SnapshotWriter.message_id_of (PStr "2024#id#x") = Ok (PStr "id")
  /\ SnapshotWriter.message_id_of (PStr "2024#id") = Ok (PStr "id").
Proof.
  destruct published_id_is_second_component as (Hnone & Hsome & Hone & _).
  split; [|split].
  - apply Hnone. reflexivity.
  - apply (Hsome "2024#id#x"). reflexivity.
  - apply (Hone "2024#id"). reflexivity.
Defined.

Lemma snapshot_idempotent_witness :
  let w1 := (SnapshotWriter.handler calm PNone one_message).2 in
  let w2 := (SnapshotWriter.handler calm (PInt 7) w1).2 in
  bucket w2 = bucket w1 /\ table w2 = table one_message
  /\ bucket w1 !! state_location calm = Some (state_object (table one_message)).
Proof.
  destruct (snapshot_idempotent calm PNone (PInt 7) one_message) as (_ & _ & Htwice).
  destruct Htwice as (_ & _ & Hpub & Hbucket & Htable).
  - reflexivity.
  - reflexivity.
  - exact one_message_counter_ok.
  - exact one_message_messages_ok.
  - apply calm_no_fault.
  - split; [exact Hbucket|]. split; [exact Htable|exact Hpub].
Defined.

Lemma counter_invariant_witness :
  counter_value (table one_message) = 1
  /\ table (SnapshotWriter.handler calm PNone one_message).2 = table one_message
  /\ 0 <= counter_value (table one_message).
Proof.
  destruct counter_invariant as (Hingest & Hsnapshot & Hreach).
  split; [|split].
  - destruct (Hingest calm hello empty_world) as (_ & _ & Haccepted).
    destruct (Haccepted (success_response (uuid4 calm) (now_strftime calm)))
      as (_ & _ & Hfirst); [vm_compute; reflexivity|reflexivity|reflexivity|].
    apply Hfirst. reflexivity.
  - apply Hsnapshot.
  - apply Hreach, one_message_reachable.
Defined.

Lemma snapshot_failures_propagate_witness :
  (SnapshotWriter.handler (failing 3) PNone one_message).1
  = Raise (mkExn ClientError "Throttled")
  /\ (SnapshotWriter.handler (failing 4) PNone one_message).1
     = Raise (mkExn ClientError "Throttled")
  /\ (SnapshotWriter.handler (failing 5) PNone one_message).1
     = Raise (mkExn ClientError "Throttled")
  /\ (SnapshotWriter.handler calm PNone one_message).1
     = Ok (SnapshotWriter.mkAck 200
             (dumps None 0 (PDict [("success", PBool true); ("messageCount", PInt 1)]))).
Proof.
  split; [|split; [|split]].
  - destruct (snapshot_failures_propagate (failing 3) PNone one_message eq_refl)
      as (_ & Hfault & _).
    apply (Hfault 0%nat); [lia| |exact one_message_counter_ok|exact one_message_messages_ok].
    split; [reflexivity|]. intros i Hi. lia.
  - destruct (snapshot_failures_propagate (failing 4) PNone one_message eq_refl)
      as (_ & Hfault & _).
    apply (Hfault 1%nat); [lia| |exact one_message_counter_ok|exact one_message_messages_ok].
    split; [reflexivity|]. intros i Hi.
    destruct i as [|i]; [reflexivity|lia].
  - destruct (snapshot_failures_propagate (failing 5) PNone one_message eq_refl)
      as (_ & Hfault & _).
    apply (Hfault 2%nat); [lia| |exact one_message_counter_ok|exact one_message_messages_ok].
    split; [reflexivity|]. intros i Hi.
    destruct i as [|[|i]]; [reflexivity|reflexivity|lia].
  - destruct (snapshot_failures_propagate calm PNone one_message eq_refl)
      as (_ & _ & _ & Hok).
    rewrite Hok; [reflexivity|exact one_message_counter_ok
                  |exact one_message_messages_ok|apply calm_no_fault].
Defined.

End Runs.

(** ** Every run of the ingest handler, in detail *)
Section IngestRuns.
Import Py Aws Spec Behaviour ApiHandler.
Context `{PyLib}.

Lemma starts_clean_lstrip s : starts_clean (lstrip s).
Proof.
  induction s as [|c s IH]; simpl; [exact I|].
  destruct (isspace c) eqn:Hc; [exact IH|exact Hc].
Qed.

Lemma lstrip_clean s : starts_clean s -> lstrip s = s.
Proof. destruct s as [|c s]; simpl; [reflexivity|]. intros ->. reflexivity. Qed.

Lemma starts_clean_rstrip s : starts_clean s -> starts_clean (rstrip s).
Proof.
  destruct s as [|c s]; simpl; [intros _; exact I|]. intros Hc.
  destruct (rstrip s); [rewrite Hc|]; exact Hc.
Qed.

Lemma rstrip_idem s : rstrip (rstrip s) = rstrip s.
Proof.
  induction s as [|c s IH]; simpl; [reflexivity|].
  destruct (rstrip s) as [|a r] eqn:Hr.
  - destruct (isspace c) eqn:Hc; simpl; [reflexivity|]. rewrite Hc. reflexivity.
  - simpl in *. rewrite IH. reflexivity.
Qed.

(** Trimming a trimmed string changes nothing. *)
Lemma str_strip_idem s : str_strip (str_strip s) = str_strip s.
Proof.
  unfold str_strip.
  rewrite (lstrip_clean (rstrip (lstrip s)))
    by apply starts_clean_rstrip, starts_clean_lstrip.
  apply rstrip_idem.
Qed.

(** What the first [try] yields is a trimmed string. *)
Lemma parse_body_trimmed event w text w' :
  parse_body event w = (Ok text, w') -> str_strip text = text.
Proof.
  unfold parse_body, bind, lift, ret.
  destruct (get event "body" (PStr "{}")) as [raw|]; [|discriminate].
  destruct (get event "isBase64Encoded" (PBool false)) as [b|]; [|discriminate].
  assert (Hstrip : forall v, strip v = Ok text -> str_strip text = text).
  { intros v. destruct v; try discriminate. simpl. intros [= <-].
    apply str_strip_idem. }
  destruct (truthy b).
  - destruct (b64decode_decode raw) as [t|]; [|discriminate].
    destruct (json_loads (PStr t)) as [j|]; [|discriminate].
    destruct (get j "text" (PStr "")) as [v|]; [|discriminate].
    intros [= Hv _]. eapply Hstrip, Hv.
  - destruct (json_loads raw) as [j|]; [|discriminate].
    destruct (get j "text" (PStr "")) as [v|]; [|discriminate].
    intros [= Hv _]. eapply Hstrip, Hv.
Qed.

Lemma get_raises v k d e :
  get v k d = Raise e -> exn_cls e = AttributeError.
Proof. destruct v; try discriminate; intros [= <-]; reflexivity. Qed.

Lemma method_field_raises event e :
  method_field event = Raise e -> exn_cls e = AttributeError.
Proof.
  unfold method_field.
  destruct (get event "requestContext" (PDict [])) as [rc|e0] eqn:Hrc.
  - destruct (get rc "http" (PDict [])) as [h|e1] eqn:Hh.
    + destruct h; try discriminate; intros [= <-]; reflexivity.
    + intros [= <-]. eapply get_raises, Hh.
  - intros [= <-]. eapply get_raises, Hrc.
Qed.

(** What the first [try] raises is caught by its [except], or is an
    [AttributeError], a [TypeError] or a [RecursionError]. *)
Lemma parse_body_raises event w e w' :
  parse_body event w = (Raise e, w') ->
  is_JSONDecodeError e || is_ValueError e = true
  \/ exn_cls e = AttributeError \/ exn_cls e = TypeError
  \/ exn_cls e = RecursionError.
Proof.
  unfold parse_body, bind, lift, ret.
  destruct (get event "body" (PStr "{}")) as [raw|e0] eqn:Hraw.
  2:{ intros [= <- _]. right. left. eapply get_raises, Hraw. }
  destruct (get event "isBase64Encoded" (PBool false)) as [b|e0] eqn:Hb.
  2:{ intros [= <- _]. right. left. eapply get_raises, Hb. }
  assert (Hloads : forall v e1, json_loads v = Raise e1 ->
            is_JSONDecodeError e1 || is_ValueError e1 = true
            \/ exn_cls e1 = AttributeError \/ exn_cls e1 = TypeError
            \/ exn_cls e1 = RecursionError).
  { intros v e1.
    destruct v; simpl; try (intros [= <-]; right; right; left; reflexivity).
    destruct (loads_str s); [discriminate|]. intros [= <-].
    destruct (loads_raises s); simpl; auto. }
  destruct (truthy b).
  - destruct (b64decode_decode raw) as [t|e0] eqn:Hd.
    + destruct (json_loads (PStr t)) as [j|e0] eqn:Hj.
      * destruct (get j "text" (PStr "")) as [v|e2] eqn:Hv.
        -- destruct v; simpl; try discriminate; intros [= <- _];
             right; left; reflexivity.
        -- intros [= <- _]. right. left. eapply get_raises, Hv.
      * intros [= <- _]. eapply Hloads, Hj.
    + intros [= <- _]. destruct raw; simpl in Hd;
        try (injection Hd as <-; right; right; left; reflexivity).
      destruct (b64decode_utf8 s) as [t|[ | | ]]; try discriminate;
        injection Hd as <-; left; reflexivity.
  - destruct (json_loads raw) as [j|e0] eqn:Hj.
    + destruct (get j "text" (PStr "")) as [v|e2] eqn:Hv.
      * destruct v; simpl; try discriminate; intros [= <- _];
          right; left; reflexivity.
      * intros [= <- _]. right. left. eapply get_raises, Hv.
    + intros [= <- _]. eapply Hloads, Hj.
Qed.

(** The write sequence inside its [try], whatever fails. *)
Lemma guarded_write_ending E event w text :
  valid_text text ->
  is_method event "POST" ->
  let run :=
    try_except
      (write_sequence E text (now_strftime E) (uuid4 E)
         (now_strftime E +:+ "#" +:+ uuid4 E))
      (fun e =>
         print ("Error processing request: " +:+ exn_msg e) ;;;
         lift (response 500 (PDict [("error", PStr "Internal server error")])))
      w in
  ending E event w run.1 run.2.
Proof.
  intros Hv Hm run. subst run. unfold try_except.
  destruct (fault_at E (length (calls w))) as [e|] eqn:H0.
  { rewrite (write_sequence_first_fails _ _ _ _ _ _ _ H0). simpl.
    apply (end_increment_failed _ _ _ e text Hv). }
  destruct (counter_ok_cases (table w)) as [Hok|[s Hs]].
  2:{ rewrite (write_sequence_bad_counter _ _ _ _ _ _ _ H0 Hs). simpl.
      apply (end_increment_failed _ _ _ validation_exception text Hv). }
  rewrite (write_sequence_run _ _ _ Hok H0).
  destruct (fault_at E (length (calls w) + 1)) as [e|].
  { simpl. apply end_write_failed; assumption. }
  destruct (fault_at E (length (calls w) + 2)) as [e|].
  { simpl. apply end_notify_failed; assumption. }
  simpl. apply end_accepted; assumption.
Qed.

Lemma handler_ending E event w :
  ending E event w (handler E event w).1 (handler E event w).2.
Proof.
  destruct (method_field event) as [mo|e] eqn:Hm.
  2:{ rewrite (handler_method_raises _ _ _ _ Hm). apply end_raised.
      left. eapply method_field_raises, Hm. }
  destruct (method_cases mo) as [-> | [-> | [Hopt Hpost]]].
  { rewrite (handler_preflight _ _ _ Hm). apply end_preflight. }
  2:{ rewrite (handler_other_method _ _ _ _ Hm Hopt Hpost).
      apply end_rejected. repeat constructor. }
  rewrite (handler_post _ _ _ Hm).
  pose proof (parse_body_pure event w) as Hpure.
  destruct (parse_body event w) as [[text|e] w0] eqn:Hparse;
    simpl in Hpure; subst w0.
  2:{ destruct (is_JSONDecodeError e || is_ValueError e) eqn:Hcaught; simpl.
      - apply end_rejected. repeat constructor.
      - apply end_raised.
        destruct (parse_body_raises _ _ _ _ Hparse) as [Hc|Hc]; [congruence|exact Hc]. }
  destruct (String.eqb_spec text "") as [Hempty|Hne].
  { simpl. apply end_rejected. repeat constructor. }
  destruct (Nat.ltb_spec 500 (String.length text)) as [Hlong|Hlen].
  { simpl. apply end_rejected. repeat constructor. }
  apply guarded_write_ending; [|exact Hm].
  split; [exact Hne|]. split; [exact Hlen|].
  eapply parse_body_trimmed, Hparse.
Qed.

Lemma no_fault_3 E w :
  no_fault E w 3 <->
  fault_at E (length (calls w)) = None
  /\ fault_at E (length (calls w) + 1) = None
  /\ fault_at E (length (calls w) + 2) = None.
Proof.
  split.
  - intros Hf. split; [apply (no_fault_0 _ _ _ Hf)|].
    split; apply Hf; lia.
  - intros (H0 & H1 & H2) i Hi.
    destruct i as [|[|[|i]]]; try lia; try assumption.
    rewrite Nat.add_0_r. exact H0.
Qed.

(** X1. Whatever the request and whatever fails, a response the handler
    returns has the single header [Content-Type: application/json], a string
    as body, and one of the statuses 200, 400, 405 and 500. *)
Theorem every_response_is_json E event w resp :
  (handler E event w).1 = Ok resp ->
  headers resp = [("Content-Type", "application/json")]
  /\ (exists s, body resp = PStr s)
  /\ (statusCode resp = 200 \/ statusCode resp = 400
      \/ statusCode resp = 405 \/ statusCode resp = 500).
Proof.
  intros Hr. pose proof (handler_ending E event w) as He.
  rewrite Hr in He. remember (Ok resp) as r eqn:Heq.
  destruct He as [e _ | | status msg Hin | e text _ | e text _ _
                  | e text _ _ | text _ _]; try discriminate;
    injection Heq as <-; simpl; (split; [reflexivity|]);
    (split; [eexists; reflexivity|]); auto.
  unfold rejections in Hin.
  repeat (apply elem_of_cons in Hin as [[= -> ->]|Hin]; [auto|]).
  inversion Hin.
Qed.

(** X2. The only exceptions that escape the handler are [AttributeError],
    [TypeError] and the [RecursionError] of [json.loads] on a body nested
    too deep, and a run that raises has made no service call and has left
    the world exactly as it was. *)
Theorem escaping_exception_changes_nothing E event w e :
  (handler E event w).1 = Raise e ->
  (handler E event w).2 = w
  /\ (exn_cls e = AttributeError \/ exn_cls e = TypeError
      \/ exn_cls e = RecursionError).
Proof.
  intros Hr. pose proof (handler_ending E event w) as He.
  rewrite Hr in He. remember (Raise e) as r eqn:Heq.
  destruct He as [e0 Hcls | | status msg Hin | e0 text _ | e0 text _ _
                  | e0 text _ _ | text _ _]; try discriminate.
  injection Heq as <-. split; [reflexivity|exact Hcls].
Qed.

(** X3. Once the text of a POST has passed validation the handler always
    answers, whatever the services do: with 200 exactly when the stored
    counter is absent or a number and none of the three calls fails, and
    with 500 otherwise. *)
Theorem validated_post_always_answers E event w t :
  is_method event "POST" ->
  has_text event t ->
  str_strip t <> "" ->
  (String.length (str_strip t) <= 500)%nat ->
  exists resp,
    (handler E event w).1 = Ok resp
    /\ (statusCode resp = 200 \/ statusCode resp = 500)
    /\ (statusCode resp = 200 <-> counter_ok (table w) /\ no_fault E w 3).
Proof.
  intros Hm Ht Hne Hlen. rewrite (handler_valid_post _ _ _ _ Hm Ht Hne Hlen).
  unfold try_except. setoid_rewrite no_fault_3.
  destruct (fault_at E (length (calls w))) as [e|] eqn:H0.
  { rewrite (write_sequence_first_fails _ _ _ _ _ _ _ H0). simpl.
    eexists. split; [reflexivity|]. simpl. split; [auto|].
    split; [lia|]. intros (_ & Hnone & _). discriminate. }
  destruct (counter_ok_cases (table w)) as [Hok|[s Hs]].
  2:{ rewrite (write_sequence_bad_counter _ _ _ _ _ _ _ H0 Hs). simpl.
      eexists. split; [reflexivity|]. simpl. split; [auto|].
      split; [lia|]. intros (Hok & _). exfalso. exact (Hok s Hs). }
  rewrite (write_sequence_run _ _ _ Hok H0).
  destruct (fault_at E (length (calls w) + 1)) as [e|].
  { simpl. eexists. split; [reflexivity|]. simpl. split; [auto|].
    split; [lia|]. intros (_ & _ & Hnone & _). discriminate. }
  destruct (fault_at E (length (calls w) + 2)) as [e|].
  { simpl. eexists. split; [reflexivity|]. simpl. split; [auto|].
    split; [lia|]. intros (_ & _ & _ & Hnone). discriminate. }
  simpl. eexists. split; [reflexivity|]. simpl. split; [auto|].
  split; [|reflexivity]. intros _. auto.
Qed.

(** X4. In every run the service calls the handler makes are an initial
    part of the sequence increment, message write, notification, in that
    order; it never touches the bucket; and it puts an entry on the bus only
    in a run that has incremented the counter and written the message, which
    is a run it answers with 200. *)
Theorem ingest_calls_in_order E event w :
  let run := handler E event w in
  let ts := now_strftime E in
  let sk := ts +:+ "#" +:+ uuid4 E in
  bucket run.2 = bucket w
  /\ (exists k text, (k <= 3)%nat
                     /\ calls run.2 = (calls w ++ take k (write_calls E text))%list)
  /\ (bus run.2 = bus w
      \/ (bus run.2 = (bus w ++ [notification E (uuid4 E) ts])%list
          /\ run.1 = Ok (success_response (uuid4 E) ts)
          /\ message_count (table run.2) = Some (AttrN (counter_value (table w) + 1))
          /\ exists text, table run.2 !! ("MESSAGE", sk) = Some (message_record text ts))).
Proof.
  intros run ts sk. subst run.
  destruct (handler_ending E event w)
    as [e _ | | status msg _ | e text _ | e text _ _ | e text _ _ | text _ _];
    simpl; (split; [reflexivity|]).
  - split; [exists 0%nat, ""; split; [lia|]; rewrite app_nil_r; reflexivity|].
    left; reflexivity.
  - split; [exists 0%nat, ""; split; [lia|]; rewrite app_nil_r; reflexivity|].
    left; reflexivity.
  - split; [exists 0%nat, ""; split; [lia|]; rewrite app_nil_r; reflexivity|].
    left; reflexivity.
  - split; [exists 1%nat, text; split; [lia|reflexivity]|]. left; reflexivity.
  - split; [exists 2%nat, text; split; [lia|reflexivity]|]. left; reflexivity.
  - split; [exists 3%nat, text; split; [lia|reflexivity]|]. left; reflexivity.
  - split; [exists 3%nat, text; split; [lia|reflexivity]|]. right.
    split; [reflexivity|]. split; [reflexivity|]. split.
    + rewrite message_count_stored. apply message_count_counted.
    + exists text. unfold stored. apply lookup_insert_eq.
Qed.

(** X5. When the counter increment itself fails, because the call fails or
    because the stored counter is not a number, a validated POST is answered
    with 500 after that single call: table and bus are as they were, no
    message is written and nothing is notified. *)
Theorem failed_increment_writes_nothing E event w t :
  is_method event "POST" ->
  has_text event t ->
  str_strip t <> "" ->
  (String.length (str_strip t) <= 500)%nat ->
  is_Some (fault_at E (length (calls w)))
  \/ (exists s, message_count (table w) = Some (AttrS s)) ->
  let run := handler E event w in
  run.1 = Ok (error_response 500 "Internal server error")
  /\ table run.2 = table w
  /\ bus run.2 = bus w
  /\ calls run.2 = (calls w ++ [increment_call E])%list
  /\ exists line, log run.2 = (log w ++ [line])%list.
Proof.
  intros Hm Ht Hne Hlen Hfail run. subst run.
  rewrite (handler_valid_post _ _ _ _ Hm Ht Hne Hlen). unfold try_except.
  destruct (fault_at E (length (calls w))) as [e|] eqn:H0.
  { rewrite (write_sequence_first_fails _ _ _ _ _ _ _ H0). simpl.
    repeat split. eexists; reflexivity. }
  destruct Hfail as [[e He]|[s Hs]]; [discriminate|].
  rewrite (write_sequence_bad_counter _ _ _ _ _ _ _ H0 Hs). simpl.
  repeat split. eexists; reflexivity.
Qed.

(** What a run does to the table. *)
Lemma ending_table E event w r w' :
  ending E event w r w' ->
  table w' = table w
  \/ table w' = counted (table w)
  \/ exists text,
       valid_text text
       /\ table w' = stored (counted (table w))
                       (now_strftime E +:+ "#" +:+ uuid4 E) text (now_strftime E).
Proof.
  intros [e _ | | status msg _ | e text _ | e text _ _ | e text Hv _ | text Hv _];
    simpl; eauto.
Qed.

(** X6. A run of the handler touches at most two items of the table: the
    counter record, of which it changes only [messageCount], and the item
    under the sort key it has built.  Every other item is as it was: no
    stored message is changed or deleted. *)
Theorem ingest_touches_two_items E event w :
  let t' := table (handler E event w).2 in
  (forall k, k <> METADATA ->
             k <> ("MESSAGE", now_strftime E +:+ "#" +:+ uuid4 E) ->
             t' !! k = table w !! k)
  /\ (forall a, a <> "messageCount" ->
                (t' !! METADATA ≫= fun it => it !! a)
                = (table w !! METADATA ≫= fun it => it !! a)).
Proof.
  intros t'. subst t'.
  assert (Hc : forall a, a <> "messageCount" ->
            (counted (table w) !! METADATA ≫= fun it => it !! a)
            = (table w !! METADATA ≫= fun it => it !! a)).
  { intros a Ha. unfold counted. rewrite lookup_insert_eq. simpl.
    rewrite lookup_insert_ne by congruence.
    destruct (table w !! METADATA); [reflexivity|apply lookup_empty]. }
  destruct (ending_table _ _ _ _ _ (handler_ending E event w))
    as [-> | [-> | (text & _ & ->)]].
  - split; reflexivity.
  - split; [|exact Hc]. intros k Hk _. unfold counted.
    rewrite lookup_insert_ne by congruence. reflexivity.
  - split.
    + intros k Hk1 Hk2. unfold stored, counted.
      rewrite lookup_insert_ne by congruence.
      rewrite lookup_insert_ne by congruence. reflexivity.
    + intros a Ha. unfold stored. rewrite lookup_insert_ne by discriminate.
      apply Hc, Ha.
Qed.

(** X7. A POST whose event carries a [body] that is not a string (a JSON
    null, a number, an object) raises a [TypeError], from [json.loads] or
    from [base64.b64decode], which the handler does not catch: it returns no
    response. *)
Theorem non_string_body_type_error E d w v :
  is_method (PDict d) "POST" ->
  assoc "body" d = Some v ->
  (forall s, v <> PStr s) ->
  exists e,
    handler E (PDict d) w = (Raise e, w) /\ exn_cls e = TypeError.
Proof.
  intros Hm Hb Hv. rewrite (handler_post _ _ _ Hm).
  unfold parse_body, bind, lift, ret. simpl. rewrite Hb. simpl.
  destruct (truthy (default (PBool false) (assoc "isBase64Encoded" d)));
    destruct v; try (eexists; split; reflexivity);
    exfalso; eapply Hv; reflexivity.
Qed.

(** X8. A POST whose event has no [body] at all is read as the empty JSON
    object: provided [json.loads("{}")] is the empty dict, it is answered
    with 400 [{error: "Message text is required"}], not with "Invalid
    JSON", and nothing is written. *)
Theorem missing_body_is_empty_object E d w :
  is_method (PDict d) "POST" ->
  assoc "body" d = None ->
  truthy (default (PBool false) (assoc "isBase64Encoded" d)) = false ->
  loads_str "{}" = Some (PDict []) ->
  handler E (PDict d) w
  = (Ok (error_response 400 "Message text is required"), w).
Proof.
  intros Hm Hb H64 Hl. rewrite (handler_post _ _ _ Hm).
  unfold parse_body, bind, lift, ret. simpl. rewrite Hb, H64. simpl.
  rewrite Hl. reflexivity.
Qed.

End IngestRuns.

(** ** What holds of every table the handlers can reach *)
Section Reachable.
Import Py Aws Spec Behaviour.
Context `{PyLib}.

(** X9. Every message record in a table the two handlers have built from
    an empty one is as the ingest handler writes it: it has exactly the
    attributes [text] and [createdAt], its sort key is [createdAt], a [#] and
    an id, and its text is trimmed, not empty and at most 500 characters
    long. *)
Theorem stored_messages_well_formed w sk it :
  reachable w ->
  table w !! ("MESSAGE", sk) = Some it ->
  exists text ts id,
    it = <["text" := AttrS text]> (<["createdAt" := AttrS ts]> ∅)
    /\ sk = ts +:+ "#" +:+ id
    /\ text <> ""
    /\ (String.length text <= 500)%nat
    /\ str_strip text = text.
Proof.
  intros Hr. revert sk it.
  induction Hr as [w Hempty | E event w _ IH | E event w _ IH]; intros sk it.
  - rewrite Hempty, lookup_empty. discriminate.
  - destruct (ending_table _ _ _ _ _ (handler_ending E event w))
      as [-> | [-> | (text & (Hne & Hlen & Htrim) & ->)]].
    + apply IH.
    + unfold counted. rewrite lookup_insert_ne by discriminate. apply IH.
    + unfold stored.
      destruct (decide (now_strftime E +:+ "#" +:+ uuid4 E = sk)) as [<-|Hsk].
      * rewrite lookup_insert_eq. intros [= <-].
        exists text, (now_strftime E), (uuid4 E). repeat split; assumption.
      * rewrite lookup_insert_ne by congruence.
        unfold counted. rewrite lookup_insert_ne by discriminate. apply IH.
  - destruct (keeps_handler E event w) as [-> _]. apply IH.
Qed.

Lemma stored_messages_stored_le t sk text ts :
  stored_messages (stored t sk text ts) <= stored_messages t + 1.
Proof.
  unfold stored_messages. rewrite messages_of_stored, map_size_insert.
  destruct (messages_of t !! ("MESSAGE", sk)); simpl; lia.
Qed.

Lemma reachable_counter_covers w :
  reachable w -> stored_messages (table w) <= counter_value (table w).
Proof.
  induction 1 as [w Hempty | E event w _ IH | E event w _ IH].
  - rewrite Hempty. unfold stored_messages, messages_of, counter_value, message_count.
    rewrite map_filter_empty, map_size_empty, lookup_empty. simpl. lia.
  - destruct (ending_table _ _ _ _ _ (handler_ending E event w))
      as [-> | [-> | (text & _ & ->)]].
    + exact IH.
    + rewrite stored_messages_counted, counter_value_counted. lia.
    + rewrite counter_value_stored, counter_value_counted.
      pose proof (stored_messages_stored_le (counted (table w))
                    (now_strftime E +:+ "#" +:+ uuid4 E) text (now_strftime E)).
      rewrite stored_messages_counted in *. lia.
  - destruct (keeps_handler E event w) as [-> _]. exact IH.
Qed.

(** X10. In every table the two handlers have built from an empty one the
    counter is at least the number of stored message records: whatever
    fails, the counter may overstate the messages but never understates
    them. *)
Theorem counter_covers_stored_messages w :
  reachable w ->
  stored_messages (table w) <= counter_value (table w).
Proof. apply reachable_counter_covers. Qed.

End Reachable.

(** ** Every run of the snapshot builder, in detail *)
Section SnapshotRuns.
Import Py Aws Spec Behaviour SnapshotWriter.
Context `{PyLib}.

Lemma message_of_item_raw r : message_of_item (returned_item r) = Ok (raw_entry r).
Proof.
  unfold message_of_item, returned_item, item_get.
  rewrite !project_lookup_in by (repeat constructor).
  rewrite full_item_lookup_SK.
  rewrite !full_item_lookup_other by discriminate.
  simpl. rewrite message_id_of_str. reflexivity.
Qed.

Lemma collect_messages_raw acc rows :
  collect_messages acc (returned_item <$> rows) = Ok (acc ++ (raw_entry <$> rows))%list.
Proof.
  revert acc. induction rows as [|r rows IH]; intros acc; simpl.
  - rewrite app_nil_r. reflexivity.
  - rewrite message_of_item_raw, IH, <- app_assoc. reflexivity.
Qed.

(** The body of the [try] on any table, by what fails, if anything. *)
Lemma build_snapshot_general E w :
  build_snapshot E w =
    match fault_at E (length (calls w)) with
    | Some e => (Raise e, after_read E w)
    | None =>
        match fault_at E (length (calls w) + 1) with
        | Some e => (Raise e, after_scan E w)
        | None =>
            match int (read_count (table w)) with
            | Raise e => (Raise e, after_scan E w)
            | Ok n =>
                if serializable (raw_document n (table w))
                then match fault_at E (length (calls w) + 2) with
                     | Some e => (Raise e, after_failed_publish E w n)
                     | None => (Ok (count_ack n), after_publish E w n)
                     end
                else (Raise not_serializable, after_scan E w)
            end
        end
    end.
Proof.
  unfold build_snapshot, bind at 1.
  change ("METADATA", "METADATA") with METADATA.
  destruct (fault_at E (length (calls w))) as [e|] eqn:H0.
  { unfold get_item, service. rewrite H0. reflexivity. }
  destruct (get_item_count E w H0) as (r & -> & Hr). rewrite Hr.
  fold (after_read E w).
  assert (Hlen1 : length (calls (after_read E w)) = (length (calls w) + 1)%nat).
  { unfold after_read. simpl. rewrite length_app. reflexivity. }
  unfold bind at 1, query, service.
  destruct (fault_at E (length (calls (after_read E w)))) as [e|] eqn:H1;
    rewrite Hlen1 in H1; rewrite H1.
  { reflexivity. }
  fold (scan_call E). fold (after_scan E w).
  assert (Hlen2 : length (calls (after_scan E w)) = (length (calls w) + 2)%nat).
  { unfold after_scan, after_read. simpl. rewrite !length_app. simpl. lia. }
  change (default [] (Items _)) with (returned_item <$> newest 5 (table w)).
  unfold bind at 1, lift at 1.
  rewrite (collect_messages_raw [] _). simpl app.
  unfold bind at 1, lift at 1.
  destruct (int (read_count (table w))) as [n|e] eqn:Hint; [|reflexivity].
  fold (raw_document n (table w)).
  unfold bind at 1, lift at 1, json_dumps at 1.
  destruct (serializable (raw_document n (table w))); [|reflexivity].
  fold (object_of (raw_document n (table w))).
  unfold bind at 1, put_object, service.
  destruct (fault_at E (length (calls (after_scan E w)))) as [e|] eqn:H2;
    rewrite Hlen2 in H2; rewrite H2.
  { reflexivity. }
  unfold bind, print, lift, ret. rewrite ?Hint.
  unfold json_dumps. simpl.
  unfold after_publish, count_ack, state_location. simpl.
  rewrite length_fmap. reflexivity.
Qed.

(** The handler on any payload. *)
Lemma handler_general E event w :
  handler E event w =
    if serializable event
    then match build_snapshot E
                 (logged ("Received event: " +:+ dumps_text None event) w) with
         | (Ok a, w') => (Ok a, w')
         | (Raise e, w') =>
             (Raise e, logged ("Error generating snapshot: " +:+ exn_msg e) w')
         end
    else (Raise not_serializable, w).
Proof.
  destruct (serializable event) eqn:Hs; [apply handler_run, Hs|].
  unfold handler, bind, lift, json_dumps. rewrite Hs. reflexivity.
Qed.

(** The handler on a payload that [json.dumps] accepts, by what fails. *)
Lemma handler_cases E event w :
  serializable event = true ->
  let w0 := logged ("Received event: " +:+ dumps_text None event) w in
  let failed e w' := (Raise e, logged ("Error generating snapshot: " +:+ exn_msg e) w') in
  handler E event w =
    match fault_at E (length (calls w)) with
    | Some e => failed e (after_read E w0)
    | None =>
        match fault_at E (length (calls w) + 1) with
        | Some e => failed e (after_scan E w0)
        | None =>
            match int (read_count (table w)) with
            | Raise e => failed e (after_scan E w0)
            | Ok n =>
                if serializable (raw_document n (table w))
                then match fault_at E (length (calls w) + 2) with
                     | Some e => failed e (after_failed_publish E w0 n)
                     | None => (Ok (count_ack n), after_publish E w0 n)
                     end
                else failed not_serializable (after_scan E w0)
            end
        end
    end.
Proof.
  intros Hs w0 failed. rewrite handler_general, Hs, build_snapshot_general.
  fold w0. change (calls w0) with (calls w). change (table w0) with (table w).
  destruct (fault_at E (length (calls w))); [reflexivity|].
  destruct (fault_at E (length (calls w) + 1)); [reflexivity|].
  destruct (int (read_count (table w))) as [n|]; [|reflexivity].
  destruct (serializable (raw_document n (table w))); [|reflexivity].
  destruct (fault_at E (length (calls w) + 2)); reflexivity.
Qed.

Lemma str_contains_append c a b :
  str_contains c (a +:+ String c b) = true.
Proof.
  induction a as [|c' a IH]; simpl.
  - rewrite Ascii.eqb_refl. reflexivity.
  - rewrite IH. apply orb_true_r.
Qed.

Lemma after_first_append c a b :
  str_contains c a = false -> after_first c (a +:+ String c b) = b.
Proof.
  induction a as [|c' a IH]; simpl.
  - rewrite Ascii.eqb_refl. reflexivity.
  - destruct (Ascii.eqb c' c); simpl; [discriminate|exact IH].
Qed.

Lemma published_id_built_key ts id :
  str_contains "#" ts = false ->
  published_id (ts +:+ "#" +:+ id) = before_first "#" id.
Proof.
  intros Hts. unfold published_id.
  change (ts +:+ "#" +:+ id) with (ts +:+ String "#" id).
  rewrite str_contains_append, (after_first_append _ _ _ Hts). reflexivity.
Qed.

(** X11. The sort key round trip: from a key built as
    [f"{timestamp}#{message_id}"] the snapshot builder recovers the id up to
    its first [#], provided the timestamp has no [#]; it recovers exactly
    [message_id] when the id has no [#] either. *)
Theorem sort_key_round_trip ts id :
  str_contains "#" ts = false ->
  message_id_of (PStr (ts +:+ "#" +:+ id)) = Ok (PStr (before_first "#" id))
  /\ (str_contains "#" id = false ->
      message_id_of (PStr (ts +:+ "#" +:+ id)) = Ok (PStr id)).
Proof.
  intros Hts. rewrite message_id_of_str, (published_id_built_key _ _ Hts).
  split; [reflexivity|]. intros Hid. rewrite (before_first_none _ _ Hid).
  reflexivity.
Qed.

(** X13. The builder publishes exactly when it succeeds.  A run that
    returns has overwritten the one object [state.json] of [BUCKET_NAME]
    with an object of content type [application/json] and cache control
    [no-cache, no-store, must-revalidate], and has left every other object
    alone; a run that raises, whatever the reason, has left the bucket as it
    was. *)
Theorem snapshot_publishes_iff_it_returns E event w :
  let run := handler E event w in
  (forall a, run.1 = Ok a ->
     exists o, bucket run.2 = <[(BUCKET_NAME E, "state.json") := o]> (bucket w)
               /\ ContentType o = "application/json"
               /\ CacheControl o = "no-cache, no-store, must-revalidate")
  /\ (forall e, run.1 = Raise e -> bucket run.2 = bucket w).
Proof.
  intros run. subst run.
  destruct (serializable event) eqn:Hs.
  2:{ rewrite handler_general, Hs. split; [discriminate|reflexivity]. }
  rewrite (handler_cases _ _ _ Hs). cbv zeta.
  destruct (fault_at E (length (calls w)));
    [split; [discriminate|reflexivity]|].
  destruct (fault_at E (length (calls w) + 1));
    [split; [discriminate|reflexivity]|].
  destruct (int (read_count (table w))) as [n|]; [|split; [discriminate|reflexivity]].
  destruct (serializable (raw_document n (table w)));
    [|split; [discriminate|reflexivity]].
  destruct (fault_at E (length (calls w) + 2));
    [split; [discriminate|reflexivity]|].
  split; [|discriminate]. intros a _. eexists. split; [reflexivity|].
  split; reflexivity.
Qed.

(** X14. In every run the service calls the builder makes are an initial
    part of the sequence read of the counter, query of the messages, write of
    the object, in that order: it never writes before both reads have
    succeeded, and it makes no other call. *)
Theorem snapshot_calls_in_order E event w :
  exists k o,
    (k <= 3)%nat
    /\ calls (handler E event w).2
       = (calls w ++ take k [read_call E; scan_call E;
                             PutObject (BUCKET_NAME E) STATE_KEY o])%list.
Proof.
  set (o0 := object_of (PDict [])).
  destruct (serializable event) eqn:Hs.
  2:{ rewrite handler_general, Hs. exists 0%nat, o0. split; [lia|]. simpl.
      rewrite app_nil_r. reflexivity. }
  rewrite (handler_cases _ _ _ Hs). cbv zeta.
  destruct (fault_at E (length (calls w))).
  { exists 1%nat, o0. split; [lia|reflexivity]. }
  destruct (fault_at E (length (calls w) + 1)).
  { exists 2%nat, o0. split; [lia|]. simpl. rewrite <- ?app_assoc. reflexivity. }
  destruct (int (read_count (table w))) as [n|].
  2:{ exists 2%nat, o0. split; [lia|]. simpl. rewrite <- ?app_assoc. reflexivity. }
  destruct (serializable (raw_document n (table w))).
  2:{ exists 2%nat, o0. split; [lia|]. simpl. rewrite <- ?app_assoc. reflexivity. }
  destruct (fault_at E (length (calls w) + 2));
    (exists 3%nat, (object_of (raw_document n (table w))); split; [lia|]; simpl;
     rewrite <- ?app_assoc; reflexivity).
Qed.

(** X15. The trigger payload is used for the first log line only: on two
    payloads that [json.dumps] accepts, runs from the same world make the
    same calls, return or raise the same thing and leave the same table, bus
    and bucket, whatever fails. *)
Theorem payload_only_logged E event1 event2 w :
  serializable event1 = true ->
  serializable event2 = true ->
  let run1 := handler E event1 w in
  let run2 := handler E event2 w in
  run1.1 = run2.1
  /\ calls run1.2 = calls run2.2
  /\ bucket run1.2 = bucket run2.2
  /\ table run1.2 = table run2.2
  /\ bus run1.2 = bus run2.2.
Proof.
  intros Hs1 Hs2 run1 run2. subst run1 run2.
  rewrite (handler_cases _ _ _ Hs1), (handler_cases _ _ _ Hs2). cbv zeta.
  destruct (fault_at E (length (calls w))); [repeat split|].
  destruct (fault_at E (length (calls w) + 1)); [repeat split|].
  destruct (int (read_count (table w))) as [n|]; [|repeat split].
  destruct (serializable (raw_document n (table w))); [|repeat split].
  destruct (fault_at E (length (calls w) + 2)); repeat split.
Qed.

Lemma newest_none n t :
  (forall sk, t !! ("MESSAGE", sk) = None) -> newest n t = [].
Proof.
  intros Hnone. destruct (newest n t) as [|r rest] eqn:Hn; [reflexivity|].
  destruct (newest_spec n t) as (_ & _ & Hin & _).
  specialize (Hin r). rewrite Hn in Hin.
  rewrite Hnone in Hin. discriminate Hin. left.
Qed.

(** X16. Before anything was posted, with no counter record and no message
    record in the table, a run that nothing disturbs publishes the document
    with [messageCount] 0 and an empty list of messages, and acknowledges
    the count 0. *)
Theorem snapshot_of_empty_table E event w :
  serializable event = true ->
  table w !! METADATA = None ->
  (forall sk, table w !! ("MESSAGE", sk) = None) ->
  no_fault E w 3 ->
  let run := handler E event w in
  run.1 = Ok (mkAck 200
                (dumps_text None
                   (PDict [("success", PBool true); ("messageCount", PInt 0)])))
  /\ bucket run.2 !! (BUCKET_NAME E, "state.json")
     = Some (mkObject
               (dumps_text (Some 2%nat)
                  (PDict [("messageCount", PInt 0); ("messages", PList [])]))
               "application/json" "no-cache, no-store, must-revalidate").
Proof.
  intros Hs Hmeta Hnone Hf run. subst run.
  apply no_fault_3 in Hf as (H0 & H1 & H2).
  rewrite (handler_cases _ _ _ Hs). cbv zeta. rewrite H0, H1.
  unfold read_count, message_count. rewrite Hmeta. simpl.
  unfold after_publish, object_of, raw_document.
  rewrite (newest_none _ _ Hnone). simpl.
  rewrite H2. simpl. rewrite ?(newest_none _ _ Hnone).
  split; [reflexivity|]. apply lookup_insert_eq.
Qed.

Lemma serializable_raw_entries rows r a n :
  r ∈ rows ->
  a = "text" \/ a = "createdAt" ->
  r.2 !! a = Some (AttrN n) ->
  forallb serializable (raw_entry <$> rows) = false.
Proof.
  intros Hin Ha Hn.
  induction Hin as [r rows|r r' rows _ IH]; rewrite fmap_cons; cbn [forallb].
  - assert (Hr : serializable (raw_entry r) = false).
    { unfold raw_entry, raw_field. destruct Ha as [-> | ->]; rewrite Hn; simpl;
        rewrite ?andb_false_r; reflexivity. }
    rewrite Hr. reflexivity.
  - rewrite (IH Hn). apply andb_false_r.
Qed.

(** X17. A number stored as [text] or [createdAt] of one of the five
    newest message records makes the builder fail: boto3 hands it out as a
    [Decimal], [json.dumps] raises a [TypeError], the handler logs and
    re-raises it, and nothing is published: the write of the object is never
    attempted. *)
Theorem numeric_attribute_breaks_snapshot E event w r a n :
  serializable event = true ->
  counter_ok (table w) ->
  no_fault E w 2 ->
  r ∈ newest 5 (table w) ->
  a = "text" \/ a = "createdAt" ->
  r.2 !! a = Some (AttrN n) ->
  let run := handler E event w in
  run.1 = Raise (mkExn TypeError "Object of type Decimal is not JSON serializable")
  /\ bucket run.2 = bucket w
  /\ calls run.2 = (calls w ++ [read_call E; scan_call E])%list
  /\ last (log run.2)
     = Some "Error generating snapshot: Object of type Decimal is not JSON serializable".
Proof.
  intros Hs Hc Hf Hin Ha Hn run. subst run.
  rewrite (handler_cases _ _ _ Hs). cbv zeta.
  rewrite (no_fault_0 _ _ _ Hf), (Hf 1%nat) by lia.
  destruct (read_count_ok _ Hc) as [-> _].
  assert (Hbad : serializable (raw_document (counter_value (table w)) (table w)) = false).
  { unfold raw_document. simpl.
    rewrite (serializable_raw_entries _ _ _ _ Hin Ha Hn). reflexivity. }
  rewrite Hbad. simpl.
  split; [reflexivity|]. split; [reflexivity|].
  split; [rewrite <- app_assoc; reflexivity|apply last_snoc].
Qed.

End SnapshotRuns.

(** ** A post followed by a snapshot *)
Section Composition.
Import Py Aws Spec Behaviour.
Context `{PyLib}.

Lemma rows_of_partition t :
  filter (fun kv : (string * string) * gmap string attr => kv.1.1 = "MESSAGE")
    (map_to_list t)
  ≡ₚ map_to_list (messages_of t).
Proof.
  apply NoDup_Permutation.
  - apply NoDup_filter, NoDup_map_to_list.
  - apply NoDup_map_to_list.
  - intros [k it]. rewrite list_elem_of_filter, !elem_of_map_to_list.
    unfold messages_of. rewrite map_lookup_filter_Some. simpl. tauto.
Qed.

Lemma length_newest n t : (length (newest n t) <= size (messages_of t))%nat.
Proof.
  unfold newest. rewrite length_take.
  etransitivity; [apply Nat.le_min_r|].
  unfold scan. rewrite merge_sort_Permutation.
  unfold partition_rows. rewrite length_fmap, rows_of_partition.
  rewrite length_map_to_list. reflexivity.
Qed.

(** X18. On a table the two handlers have built from an empty one the
    builder never fails on the stored data: when no service call fails it
    returns, and the document it publishes has a [messageCount] that is at
    least the number of messages it lists. *)
Theorem snapshot_of_reachable_table E event w :
  reachable w ->
  serializable event = true ->
  no_fault E w 3 ->
  let run := SnapshotWriter.handler E event w in
  exists count messages,
    run.1 = Ok (SnapshotWriter.mkAck 200
                  (dumps_text None
                     (PDict [("success", PBool true);
                             ("messageCount", PInt count)])))
    /\ bucket run.2 !! (SnapshotWriter.BUCKET_NAME E, "state.json")
       = Some (mkObject
                 (dumps_text (Some 2%nat)
                    (PDict [("messageCount", PInt count);
                            ("messages", PList messages)]))
                 "application/json" "no-cache, no-store, must-revalidate")
    /\ (length messages <= 5)%nat
    /\ Z.of_nat (length messages) <= count.
Proof.
  intros Hr Hs Hf run. subst run.
  destruct (reachable_invariant w Hr) as (Hc & Hm & _).
  exists (counter_value (table w)), (entry_of <$> newest 5 (table w)).
  rewrite handler_publishes by assumption. simpl.
  split; [reflexivity|]. split; [apply lookup_insert_eq|].
  rewrite length_fmap.
  split; [apply (newest_spec 5 (table w))|].
  pose proof (length_newest 5 (table w)) as Hlen.
  pose proof (reachable_counter_covers w Hr) as Hcount.
  unfold stored_messages in Hcount. lia.
Qed.

Lemma string_ltb_not_leb a b :
  String.ltb a b = true -> String.leb b a = true -> False.
Proof.
  unfold String.ltb, String.leb. rewrite (String.compare_antisym b a).
  destruct (String.compare a b); simpl; congruence.
Qed.

(** The record written under a sort key above all stored ones heads the
    descending scan. *)
Lemma newest_after_store n t sk text ts :
  (0 < n)%nat ->
  (forall sk' it, t !! ("MESSAGE", sk') = Some it -> String.ltb sk' sk = true) ->
  exists rest,
    newest n (stored (counted t) sk text ts) = (sk, message_record text ts) :: rest.
Proof.
  intros Hn Hbelow.
  set (t1 := stored (counted t) sk text ts).
  destruct (newest_spec n t1) as (_ & Hsorted & Hin & Hmax).
  assert (Hnew : t1 !! ("MESSAGE", sk) = Some (message_record text ts))
    by apply lookup_insert_eq.
  assert (Htop : forall r, r ∈ newest n t1 -> String.leb sk r.1 = true ->
                           r = (sk, message_record text ts)).
  { intros [sk' it] Hr Hle. simpl in Hle. specialize (Hin _ Hr). simpl in Hin.
    destruct (decide (sk' = sk)) as [->|Hne].
    - rewrite Hnew in Hin. injection Hin as <-. reflexivity.
    - exfalso. unfold t1, stored, counted in Hin.
      rewrite lookup_insert_ne in Hin by congruence.
      rewrite lookup_insert_ne in Hin by discriminate.
      eapply string_ltb_not_leb; [eapply Hbelow, Hin|exact Hle]. }
  destruct (newest n t1) as [|h rest] eqn:Hnewest.
  - exfalso. destruct (Hmax _ _ Hnew) as [Hmem|[Hlen _]].
    + inversion Hmem.
    + simpl in Hlen. lia.
  - exists rest. f_equal. apply Htop; [left|].
    destruct (Hmax _ _ Hnew) as [Hmem|[_ Hall]].
    + apply elem_of_cons in Hmem as [Heq|Hmem].
      * rewrite <- Heq. simpl.
        destruct (String.leb_total sk sk) as [Hl|Hl]; exact Hl.
      * apply StronglySorted_inv in Hsorted as [_ Hall].
        rewrite Forall_forall in Hall. apply (Hall _ Hmem).
    + apply Hall. left.
Qed.

(** X12. Newest first, end to end.  When a valid POST is accepted under a
    sort key above every stored one, with no [#] in the timestamp nor in the
    id, and the snapshot builder is configured with the table name of the
    ingest handler, its next undisturbed run, reading the table as the post
    left it, addresses its two reads to the table the post wrote to and
    publishes a document whose [messageCount] is the previous counter plus 1
    and whose first message is the one just posted: the generated id, the
    trimmed text and the timestamp. *)
Theorem posted_message_heads_next_snapshot E E' event trigger w t :
  SnapshotWriter.TABLE_NAME E' = ApiHandler.TABLE_NAME E ->
  is_method event "POST" ->
  has_text event t ->
  str_strip t <> "" ->
  (String.length (str_strip t) <= 500)%nat ->
  counter_ok (table w) ->
  messages_ok (table w) ->
  no_fault E w 3 ->
  str_contains "#" (now_strftime E) = false ->
  str_contains "#" (uuid4 E) = false ->
  (forall sk' it, table w !! ("MESSAGE", sk') = Some it ->
                  String.ltb sk' (now_strftime E +:+ "#" +:+ uuid4 E) = true) ->
  serializable trigger = true ->
  let w1 := (ApiHandler.handler E event w).2 in
  no_fault E' w1 3 ->
  let w2 := (SnapshotWriter.handler E' trigger w1).2 in
  exists rest,
    bucket w2 !! (SnapshotWriter.BUCKET_NAME E', "state.json")
    = Some (mkObject
              (dumps_text (Some 2%nat)
                 (PDict [("messageCount", PInt (counter_value (table w) + 1));
                         ("messages",
                          PList (PDict [("id", PStr (uuid4 E));
                                        ("text", PStr (str_strip t));
                                        ("createdAt", PStr (now_strftime E))]
                                 :: rest))]))
              "application/json" "no-cache, no-store, must-revalidate")
    /\ (length rest <= 4)%nat
    /\ calls w2
       = (calls w ++ write_calls E (str_strip t)
          ++ [GetItem (ApiHandler.TABLE_NAME E) METADATA ["messageCount"];
              Query (ApiHandler.TABLE_NAME E) "MESSAGE" false 5
                ["SK"; "text"; "createdAt"];
              publish_call E' (table w1)])%list.
Proof.
  intros Hname Hm Ht Hne Hlen Hc Hmsg Hf Hts Hid Hbelow Hs w1 Hf' w2.
  assert (Hw1 : w1 = after_notify E w (str_strip t)).
  { unfold w1. rewrite (handler_valid_post _ _ _ _ Hm Ht Hne Hlen).
    unfold try_except.
    rewrite (write_sequence_run _ _ _ Hc (no_fault_0 _ _ _ Hf)).
    rewrite (Hf 1%nat), (Hf 2%nat) by lia. reflexivity. }
  set (sk := now_strftime E +:+ "#" +:+ uuid4 E) in *.
  set (t1 := stored (counted (table w)) sk (str_strip t) (now_strftime E)).
  assert (Ht1 : table w1 = t1) by (rewrite Hw1; reflexivity).
  assert (Hc1 : counter_ok (table w1)).
  { rewrite Ht1. apply counter_ok_stored, counter_ok_counted. }
  assert (Hm1 : messages_ok (table w1)).
  { rewrite Ht1. apply messages_ok_stored, messages_ok_counted, Hmsg. }
  destruct (newest_after_store 5 (table w) sk (str_strip t) (now_strftime E))
    as [rest Hrest]; [lia|exact Hbelow|].
  exists (entry_of <$> rest).
  unfold w2. rewrite handler_publishes by assumption. simpl.
  rewrite lookup_insert_eq. unfold state_object, snapshot_document.
  rewrite Ht1. fold t1 in Hrest. rewrite Hrest. simpl.
  unfold t1 at 1. rewrite counter_value_stored, counter_value_counted.
  split; [|split].
  3:{ unfold read_call, scan_call. rewrite Hname, Hw1. simpl.
      rewrite <- app_assoc. reflexivity. }
  - do 5 f_equal. unfold entry_of, string_field, message_record. simpl.
    rewrite lookup_insert_eq.
    rewrite lookup_insert_ne by discriminate. rewrite lookup_insert_eq.
    unfold sk. rewrite (published_id_built_key _ _ Hts).
    rewrite (before_first_none _ _ Hid). reflexivity.
  - rewrite length_fmap.
    pose proof (proj1 (newest_spec 5 t1)) as Hlen5. rewrite Hrest in Hlen5.
    simpl in Hlen5. lia.
Qed.

End Composition.

(** ** More sample runs *)
Section MoreRuns.
Import Py Aws Spec Behaviour Sample.

Lemma after_posts_reachable l : reachable (after_posts l).
Proof.
  unfold after_posts.
  assert (Hfold : forall w, reachable w ->
            reachable (foldl (fun w p => (ApiHandler.handler (at_time p.1 p.2) hello w).2)
                         w l)).
  { induction l as [|p l IH]; intros w Hw; cbn [foldl]; [exact Hw|].
    apply IH, reach_ingest, Hw. }
  apply Hfold, reach_empty. reflexivity.
Defined.

Lemma every_response_is_json_witness :
  ApiHandler.headers (error_response 405 "Method not allowed")
  = [("Content-Type", "application/json")]
  /\ exists s, ApiHandler.body (error_response 405 "Method not allowed") = PStr s.
Proof.
  destruct (every_response_is_json calm (request "GET" []) empty_world
              (error_response 405 "Method not allowed") eq_refl)
    as (Hh & Hb & _).
  split; assumption.
Defined.

Lemma escaping_exception_changes_nothing_witness :
  (ApiHandler.handler calm (post "[]") one_message).2 = one_message
  /\ (ApiHandler.handler calm (post deeply_nested) one_message).2 = one_message.
Proof.
  split.
  - apply (escaping_exception_changes_nothing calm (post "[]") one_message
             (no_attribute (PList []) "get")).
    vm_compute. reflexivity.
  - apply (escaping_exception_changes_nothing calm (post deeply_nested) one_message
             (exn_of_loads_failure NestedTooDeep)).
    vm_compute. reflexivity.
Defined.

(** Each of the three classes does leave the handler: a JSON array as body,
    [null] as body, and the body ['[' * 2000]. *)
Lemma escaping_classes_occur :
  (exists e, (ApiHandler.handler calm (post "[]") empty_world).1 = Raise e
             /\ exn_cls e = AttributeError)
  /\ (exists e, (ApiHandler.handler calm (request "POST" [("body", PNone)])
                   empty_world).1 = Raise e
                /\ exn_cls e = TypeError)
  /\ (exists e, (ApiHandler.handler calm (post deeply_nested) empty_world).1 = Raise e
                /\ exn_cls e = RecursionError).
Proof.
  repeat split; eexists; (split; [vm_compute; reflexivity|reflexivity]).
Qed.

Lemma validated_post_always_answers_witness :
  exists resp,
    (ApiHandler.handler (failing 1) hello empty_world).1 = Ok resp
    /\ (ApiHandler.statusCode resp = 200 \/ ApiHandler.statusCode resp = 500).
Proof.
  destruct (validated_post_always_answers (failing 1) hello empty_world "hello")
    as (resp & Hrun & Hstatus & _).
  - exact hello_is_post.
  - exact hello_has_text.
  - vm_compute. discriminate.
  - vm_compute. lia.
  - exists resp. split; assumption.
Defined.

Lemma ingest_calls_in_order_witness :
  bucket (ApiHandler.handler (failing 1) hello empty_world).2 = bucket empty_world.
Proof. apply (ingest_calls_in_order (failing 1) hello empty_world). Defined.

Lemma failed_increment_writes_nothing_witness :
  table (ApiHandler.handler (failing 3) hello one_message).2 = table one_message
  /\ bus (ApiHandler.handler (failing 3) hello one_message).2 = bus one_message.
Proof.
  destruct (failed_increment_writes_nothing (failing 3) hello one_message "hello")
    as (_ & Ht & Hb & _).
  - exact hello_is_post.
  - exact hello_has_text.
  - vm_compute. discriminate.
  - vm_compute. lia.
  - left. vm_compute. eexists. reflexivity.
  - split; assumption.
Defined.

Lemma ingest_touches_two_items_witness :
  table (ApiHandler.handler later hello one_message).2
    !! ("MESSAGE", now_strftime calm +:+ "#" +:+ uuid4 calm)
  = table one_message !! ("MESSAGE", now_strftime calm +:+ "#" +:+ uuid4 calm).
Proof.
  apply (ingest_touches_two_items later hello one_message).
  - discriminate.
  - vm_compute. discriminate.
Defined.

Lemma non_string_body_type_error_witness :
  exists e,
    ApiHandler.handler calm (request "POST" [("body", PNone)]) empty_world
    = (Raise e, empty_world)
    /\ exn_cls e = TypeError.
Proof.
  apply (non_string_body_type_error calm _ empty_world PNone).
  - reflexivity.
  - reflexivity.
  - intros s. discriminate.
Defined.

Lemma missing_body_is_empty_object_witness :
  ApiHandler.handler calm (request "POST" []) empty_world
  = (Ok (error_response 400 "Message text is required"), empty_world).
Proof.
  apply (missing_body_is_empty_object calm _ empty_world); reflexivity.
Defined.

Lemma stored_messages_well_formed_witness :
  exists text ts id,
    now_strftime calm +:+ "#" +:+ uuid4 calm = ts +:+ "#" +:+ id
    /\ text <> ""
    /\ str_strip text = text.
Proof.
  destruct (stored_messages_well_formed one_message
              (now_strftime calm +:+ "#" +:+ uuid4 calm)
              (message_record "hello" (now_strftime calm)))
    as (text & ts & id & _ & Hsk & Hne & _ & Htrim).
  - exact one_message_reachable.
  - vm_compute. reflexivity.
  - exists text, ts, id. repeat split; assumption.
Defined.

Lemma counter_covers_stored_messages_witness :
  stored_messages (table seven_messages) <= counter_value (table seven_messages).
Proof.
  apply counter_covers_stored_messages, after_posts_reachable.
Defined.

Lemma sort_key_round_trip_witness :
  SnapshotWriter.message_id_of (PStr (now_strftime calm +:+ "#" +:+ uuid4 calm))
  = Ok (PStr (uuid4 calm)).
Proof.
  destruct (sort_key_round_trip (now_strftime calm) (uuid4 calm)) as [_ Hid].
  - reflexivity.
  - apply Hid. reflexivity.
Defined.

Lemma one_message_keys sk it :
  table one_message !! ("MESSAGE", sk) = Some it ->
  sk = now_strftime calm +:+ "#" +:+ uuid4 calm.
Proof.
  change (table one_message)
    with (stored (counted ∅) (now_strftime calm +:+ "#" +:+ uuid4 calm)
            "hello" (now_strftime calm)).
  unfold stored, counted.
  destruct (decide (now_strftime calm +:+ "#" +:+ uuid4 calm = sk)) as [<-|Hne];
    [reflexivity|].
  rewrite lookup_insert_ne by congruence.
  rewrite lookup_insert_ne by discriminate.
  rewrite lookup_empty. discriminate.
Defined.

Lemma posted_message_heads_next_snapshot_witness :
  let w1 := (ApiHandler.handler later hello one_message).2 in
  let w2 := (SnapshotWriter.handler calm PNone w1).2 in
  exists rest,
    bucket w2 !! ("messagewall-demo-dev", "state.json")
    = Some (mkObject
              (dumps (Some 2%nat) 0
                 (PDict [("messageCount", PInt 2);
                         ("messages",
                          PList (PDict [("id", PStr (uuid4 later));
                                        ("text", PStr "hello");
                                        ("createdAt", PStr (now_strftime later))]
                                 :: rest))]))
              "application/json" "no-cache, no-store, must-revalidate").
Proof.
  destruct (posted_message_heads_next_snapshot later calm hello PNone
              one_message "hello") as (rest & Hpub & _).
  - reflexivity.
  - exact hello_is_post.
  - exact hello_has_text.
  - vm_compute. discriminate.
  - vm_compute. lia.
  - exact one_message_counter_ok.
  - exact one_message_messages_ok.
  - intros i Hi. reflexivity.
  - reflexivity.
  - reflexivity.
  - intros sk' it Hl. rewrite (one_message_keys _ _ Hl). vm_compute. reflexivity.
  - reflexivity.
  - apply calm_no_fault.
  - exists rest. exact Hpub.
Defined.

Lemma snapshot_publishes_iff_it_returns_witness :
  bucket (SnapshotWriter.handler (failing 3) PNone one_message).2
  = bucket one_message.
Proof.
  apply (snapshot_publishes_iff_it_returns (failing 3) PNone one_message)
    with (e := mkExn ClientError "Throttled").
  vm_compute. reflexivity.
Defined.

Lemma snapshot_calls_in_order_witness :
  exists k o,
    (k <= 3)%nat
    /\ calls (SnapshotWriter.handler (failing 4) PNone one_message).2
       = (calls one_message
          ++ take k [read_call (failing 4); scan_call (failing 4);
                     PutObject (SnapshotWriter.BUCKET_NAME (failing 4))
                       SnapshotWriter.STATE_KEY o])%list.
Proof. apply (snapshot_calls_in_order (failing 4) PNone one_message). Defined.

Lemma payload_only_logged_witness :
  (SnapshotWriter.handler calm PNone one_message).1
  = (SnapshotWriter.handler calm (PList [PInt 1; PStr "x"]) one_message).1.
Proof.
  apply (payload_only_logged calm PNone (PList [PInt 1; PStr "x"]) one_message);
    reflexivity.
Defined.

Lemma snapshot_of_empty_table_witness :
  (SnapshotWriter.handler calm PNone empty_world).1
  = Ok (SnapshotWriter.mkAck 200
          (dumps None 0 (PDict [("success", PBool true); ("messageCount", PInt 0)]))).
Proof.
  destruct (snapshot_of_empty_table calm PNone empty_world) as [Hack _].
  - reflexivity.
  - reflexivity.
  - intros sk. apply lookup_empty.
  - apply calm_no_fault.
  - exact Hack.
Defined.

Lemma numeric_attribute_breaks_snapshot_witness :
  (SnapshotWriter.handler calm PNone number_as_text).1
  = Raise (mkExn TypeError "Object of type Decimal is not JSON serializable")
  /\ bucket (SnapshotWriter.handler calm PNone number_as_text).2 = ∅.
Proof.
  destruct (numeric_attribute_breaks_snapshot calm PNone number_as_text
              ("t1#a", {[ "text" := AttrN 5 ]}) "text" 5)
    as (Hr & Hb & _).
  - reflexivity.
  - intros s. vm_compute. discriminate.
  - apply calm_no_fault.
  - vm_compute. left.
  - left. reflexivity.
  - reflexivity.
  - split; assumption.
Defined.

Lemma snapshot_of_reachable_table_witness :
  exists (count : Z) (messages : list pyval),
    (SnapshotWriter.handler calm PNone seven_messages).1
    = Ok (SnapshotWriter.mkAck 200
            (dumps None 0 (PDict [("success", PBool true);
                                  ("messageCount", PInt count)])))
    /\ Z.of_nat (length messages) <= count.
Proof.
  destruct (snapshot_of_reachable_table calm PNone seven_messages)
    as (count & messages & Hr & _ & _ & Hle).
  - apply after_posts_reachable.
  - reflexivity.
  - apply calm_no_fault.
  - exists count, messages. split; assumption.
Defined.

End MoreRuns.
